(** * Retail data-analysis pipeline: cleaning, trends, rankings, customers, report

    A shallow embedding of [scripts/data_processing.py].  A pandas DataFrame is
    a list of typed rows in source order; a column is a record field.  Money
    and prices are exact rationals ([Q]): the binary rounding of float64 is not
    modelled, but its special values are (see [fval]).  A timestamp is the
    number of seconds since 1970-01-01T00:00:00 as an unbounded integer. *)

From Stdlib Require Import ZArith QArith Qround Lia Bool List String Ascii.
From Stdlib Require Import Sorted Permutation DecimalString Lqa.
Import ListNotations.

Open Scope Z_scope.

(* ================================================================== *)
(** ** Exceptions and the result of a call that may raise *)

Inductive exn : Type :=
| FileNotFoundError (msg : string)
| ZeroDivisionError
| ValueError (msg : string).

Inductive result (A : Type) : Type :=
| Ok (a : A)
| Err (e : exn).
Arguments Ok {A} a.
Arguments Err {A} e.

Definition bind {A B : Type} (r : result A) (k : A -> result B) : result B :=
  match r with
  | Ok a => k a
  | Err e => Err e
  end.

Notation "x <- c ;; k" := (bind c (fun x => k))
  (at level 61, c at next level, right associativity).

(** [str(e)] as the handler of [main] prints it. *)
Definition str_exn (e : exn) : string :=
  match e with
  | FileNotFoundError msg => msg
  | ZeroDivisionError => "division by zero"
  | ValueError msg => msg
  end.

(* ================================================================== *)
(** ** float64 values: a finite number, an infinity, or NaN (pandas' null) *)

Inductive fval : Type :=
| Fin (q : Q)
| PInf
| NInf
| NaN.

Definition Qltb (x y : Q) : bool := negb (Qle_bool y x).

(** numpy's true division of two finite numbers: a zero divisor gives an
    infinity of the dividend's sign, or NaN for 0/0 (the RuntimeWarning is
    silenced by [warnings.filterwarnings('ignore')]). *)
Definition fdiv (x y : Q) : fval :=
  if Qeq_bool y 0
  then (if Qltb 0 x then PInf else if Qltb x 0 then NInf else NaN)
  else Fin (x / y).

(** [v - c] and [v * c] for a finite constant [c > 0]. *)
Definition fsub (v : fval) (c : Q) : fval :=
  match v with Fin q => Fin (q - c) | _ => v end.

Definition fmul_pos (v : fval) (c : Q) : fval :=
  match v with Fin q => Fin (q * c) | _ => v end.

(** Division by an integer-valued float that may itself be NaN. *)
Definition fdiv_opt (x : Q) (y : option Z) : fval :=
  match y with
  | Some d => fdiv x (inject_Z d)
  | None => NaN
  end.

Definition is_null (v : fval) : bool :=
  match v with NaN => true | _ => false end.

(* ================================================================== *)
(** ** Calendar decomposition of a timestamp ([.dt.year], [.dt.month], ...) *)

Definition seconds_per_day : Z := 86400.

Definition days_of (ts : Z) : Z := ts / seconds_per_day.

(** Proleptic Gregorian date of a day number (days since 1970-01-01). *)
Definition civil_from_days (days : Z) : Z * Z * Z :=
  let z := days + 719468 in
  let era := z / 146097 in
  let doe := z - era * 146097 in
  let yoe := (doe - doe / 1460 + doe / 36524 - doe / 146096) / 365 in
  let y := yoe + era * 400 in
  let doy := doe - (365 * yoe + yoe / 4 - yoe / 100) in
  let mp := (5 * doy + 2) / 153 in
  let d := doy - (153 * mp + 2) / 5 + 1 in
  let m := if mp <? 10 then mp + 3 else mp - 9 in
  (if m <=? 2 then y + 1 else y, m, d).

Definition days_from_civil (y m d : Z) : Z :=
  let y' := if m <=? 2 then y - 1 else y in
  let era := y' / 400 in
  let yoe := y' - era * 400 in
  let mp := (m + 9) mod 12 in
  let doy := (153 * mp + 2) / 5 + d - 1 in
  let doe := yoe * 365 + yoe / 4 - yoe / 100 + doy in
  era * 146097 + doe - 719468.

Definition dt_year (ts : Z) : Z := fst (fst (civil_from_days (days_of ts))).
Definition dt_month (ts : Z) : Z := snd (fst (civil_from_days (days_of ts))).
Definition dt_hour (ts : Z) : Z := (ts mod seconds_per_day) / 3600.

Definition day_names : list string :=
  ["Monday"; "Tuesday"; "Wednesday"; "Thursday"; "Friday"; "Saturday"; "Sunday"]%string.

(** 1970-01-01 was a Thursday. *)
Definition dt_day_name (ts : Z) : string :=
  nth (Z.to_nat ((days_of ts + 3) mod 7)) day_names EmptyString.

(** [Timedelta.days]: whole days of a difference of timestamps, rounded down. *)
Definition timedelta_days (delta : Z) : Z := delta / seconds_per_day.

(* ================================================================== *)
(** ** Rows *)

(** One row of the sheet as [pd.read_excel] delivers it.  A cell of the
    text columns is held by the text that [str] prints for it (a numeric
    customer id 17850.0 by "17850.0"), [None] standing for a missing cell;
    a quantity is an integer, a price an exact rational, a date the number
    of seconds since the epoch. *)
Record RawRecord : Type := mkRaw {
  raw_InvoiceNo : string;
  raw_StockCode : string;
  raw_Description : option string;
  raw_Quantity : Z;
  raw_InvoiceDate : Z;
  raw_UnitPrice : Q;
  raw_CustomerID : option string
}.

(** One row of [df_clean] once every derived column has been added. *)
Record Row : Type := mkRow {
  InvoiceNo : string;
  StockCode : string;
  Description : string;
  Quantity : Z;
  InvoiceDate : Z;
  UnitPrice : Q;
  CustomerID : string;
  Year : Z;
  Month : Z;
  DayOfWeek : string;
  Hour : Z;
  TotalAmount : Q
}.

(* ================================================================== *)
(** ** Series helpers *)

Definition Qsum (l : list Q) : Q := fold_right Qplus 0%Q l.

Definition Zsum (l : list Z) : Z := fold_right Z.add 0 l.

Definition nunique (l : list string) : nat := List.length (nodup string_dec l).

Section Sorting.
Context {A : Type} (leb : A -> A -> bool).

(** Stable insertion sort: an element is placed before the first element
    that it precedes-or-equals, so equal elements keep their input order. *)
Fixpoint insert (x : A) (l : list A) : list A :=
  match l with
  | [] => [x]
  | y :: l' => if leb x y then x :: l else y :: insert x l'
  end.

Fixpoint sort (l : list A) : list A :=
  match l with
  | [] => []
  | x :: l' => insert x (sort l')
  end.
End Sorting.

(** [Series.quantile(q)] with pandas' default linear interpolation; [None]
    is the NaN returned for an empty series. *)
Definition quantile (q : Q) (values : list Q) : option Q :=
  match sort Qle_bool values with
  | [] => None
  | (a0 :: _) as s =>
      let pos := (q * inject_Z (Z.of_nat (List.length s) - 1))%Q in
      let lo := Qfloor pos in
      let frac := (pos - inject_Z lo)%Q in
      let a := nth (Z.to_nat lo) s a0 in
      let b := nth (Z.to_nat lo + 1) s a in
      Some (a + (b - a) * frac)%Q
  end.

(** Round half to even to the nearest integer ([np.rint]). *)
Definition rint (x : Q) : Z :=
  let f := Qfloor x in
  match Qcompare (x - inject_Z f) (1 # 2) with
  | Lt => f
  | Gt => f + 1
  | Eq => if Z.even f then f else f + 1
  end.

(** [.round(2)] on a float column. *)
Definition round2 (x : Q) : Q := (inject_Z (rint (x * 100)) / 100)%Q.

(* ================================================================== *)
(** ** load_and_clean_data *)

(** What [pd.read_excel(file_path)] yields: the sheet's rows, or the error of
    an unreadable path. *)
Inductive excel_source : Type :=
| Unreadable (msg : string)
| Sheet (rows : list RawRecord).

Definition read_excel (src : excel_source) : result (list RawRecord) :=
  match src with
  | Unreadable msg => Err (FileNotFoundError msg)
  | Sheet rows => Ok rows
  end.

Definition notna {A : Type} (o : option A) : bool :=
  match o with Some _ => true | None => false end.

(** [df.dropna(subset=['CustomerID'])] *)
Definition dropna_CustomerID (df : list RawRecord) : list RawRecord :=
  filter (fun r => notna (raw_CustomerID r)) df.

Definition fillna (o : option string) (default : string) : string :=
  match o with Some s => s | None => default end.

(** [.astype(str)]: a present cell becomes the text [str] prints for it,
    which is how the cell is held here; a missing value would print as
    [nan]. *)
Definition astype_str (o : option string) : string :=
  match o with Some s => s | None => "nan"%string end.

(** Steps 2 to 5 on one row: description default, type conversions, time
    features and [TotalAmount = Quantity * UnitPrice].  The product is the
    exact one; the frame's number columns agree with it in sign and, for
    integer columns, in value as long as it stays within their range. *)
Definition derive (r : RawRecord) : Row :=
  {| InvoiceNo := raw_InvoiceNo r;
     StockCode := raw_StockCode r;
     Description := fillna (raw_Description r) "Unknown Product";
     Quantity := raw_Quantity r;
     InvoiceDate := raw_InvoiceDate r;
     UnitPrice := raw_UnitPrice r;
     CustomerID := astype_str (raw_CustomerID r);
     Year := dt_year (raw_InvoiceDate r);
     Month := dt_month (raw_InvoiceDate r);
     DayOfWeek := dt_day_name (raw_InvoiceDate r);
     Hour := dt_hour (raw_InvoiceDate r);
     TotalAmount := (inject_Z (raw_Quantity r) * raw_UnitPrice r)%Q |}.

(** Step 6: the mask [(Quantity > 0) & (UnitPrice > 0) & (TotalAmount > 0)]. *)
Definition valid_mask (r : Row) : bool :=
  (0 <? Quantity r) && Qltb 0 (UnitPrice r) && Qltb 0 (TotalAmount r).

(** Step 7: [lower_bound] and [upper_bound]; [None] when the quantiles are
    NaN. *)
Definition iqr_bounds (totals : list Q) : option (Q * Q) :=
  match quantile (1 # 4) totals, quantile (3 # 4) totals with
  | Some Q1, Some Q3 =>
      let IQR := (Q3 - Q1)%Q in
      Some ((Q1 - (3 # 2) * IQR)%Q, (Q3 + (3 # 2) * IQR)%Q)
  | _, _ => None
  end.

(** The mask [(TotalAmount >= lower_bound) & (TotalAmount <= upper_bound)];
    every comparison with NaN is false. *)
Definition inlier_mask (bounds : option (Q * Q)) (r : Row) : bool :=
  match bounds with
  | Some (lower_bound, upper_bound) =>
      Qle_bool lower_bound (TotalAmount r) && Qle_bool (TotalAmount r) upper_bound
  | None => false
  end.

(** The counts the function prints while it cleans. *)
Record CleaningStatistics : Type := mkStats {
  initial_rows : nat;
  removed_customers : nat;
  missing_desc : nat;
  removed_invalid : nat;
  removed_outliers : nat
}.

(** The frame after step 6 (validity filter), before outlier removal. *)
Definition valid_rows (df : list RawRecord) : list Row :=
  filter valid_mask (map derive (dropna_CustomerID df)).

(** Steps 1 to 7 with their counters, as the function body computes them. *)
Definition clean_stages (df : list RawRecord) : list Row * CleaningStatistics :=
  let initial_rows := List.length df in
  let df_clean1 := dropna_CustomerID df in
  let removed_customers := (initial_rows - List.length df_clean1)%nat in
  let missing_desc :=
    List.length (filter (fun r => negb (notna (raw_Description r))) df_clean1) in
  let df_clean5 := map derive df_clean1 in
  let before_filter := List.length df_clean5 in
  let df_clean6 := filter valid_mask df_clean5 in
  let removed_invalid := (before_filter - List.length df_clean6)%nat in
  let bounds := iqr_bounds (map TotalAmount df_clean6) in
  let before_outlier_removal := List.length df_clean6 in
  let df_clean7 := filter (inlier_mask bounds) df_clean6 in
  let removed_outliers := (before_outlier_removal - List.length df_clean7)%nat in
  (df_clean7,
   {| initial_rows := initial_rows;
      removed_customers := removed_customers;
      missing_desc := missing_desc;
      removed_invalid := removed_invalid;
      removed_outliers := removed_outliers |}).

Definition cleaned (df : list RawRecord) : list Row := fst (clean_stages df).
Definition cleaning_statistics (df : list RawRecord) : CleaningStatistics :=
  snd (clean_stages df).

(** The retention-rate line divides two Python ints:
    [len(df_clean)/initial_rows*100] raises on an empty sheet. *)
Definition retention_rate (kept initial : nat) : result Q :=
  match initial with
  | O => Err ZeroDivisionError
  | _ => Ok (inject_Z (Z.of_nat kept) / inject_Z (Z.of_nat initial) * 100)%Q
  end.

Definition load_and_clean_data (src : excel_source) : result (list Row) :=
  df <- read_excel src ;;
  let '(df_clean, stats) := clean_stages df in
  _ <- retention_rate (List.length df_clean) (initial_rows stats) ;;
  Ok df_clean.

(* ================================================================== *)
(** ** groupby *)

Section GroupBy.
Context {K : Type} (K_eq_dec : forall a b : K, {a = b} + {a <> b}).
Context (K_leb : K -> K -> bool).

(** The distinct keys in ascending order ([groupby] sorts its keys). *)
Definition group_keys (key : Row -> K) (df : list Row) : list K :=
  sort K_leb (nodup K_eq_dec (map key df)).

Definition group_rows (key : Row -> K) (k : K) (df : list Row) : list Row :=
  filter (fun r => if K_eq_dec (key r) k then true else false) df.

Definition groupby (key : Row -> K) (df : list Row) : list (K * list Row) :=
  map (fun k => (k, group_rows key k df)) (group_keys key df).
End GroupBy.

Definition ym_eq_dec (a b : Z * Z) : {a = b} + {a <> b}.
Proof. decide equality; apply Z.eq_dec. Defined.

Definition ym_leb (a b : Z * Z) : bool :=
  (fst a <? fst b) || ((fst a =? fst b) && (snd a <=? snd b)).

Definition ss_eq_dec (a b : string * string) : {a = b} + {a <> b}.
Proof. decide equality; apply string_dec. Defined.

Definition ss_leb (a b : string * string) : bool :=
  String.ltb (fst a) (fst b)
  || (String.eqb (fst a) (fst b) && String.leb (snd a) (snd b)).

(** [Series.mean()] of a non-empty float column. *)
Definition Qmean (l : list Q) : Q := (Qsum l / inject_Z (Z.of_nat (List.length l)))%Q.

(** [Series.idxmax()]: the position of the first maximum; raises on an empty
    series. *)
Fixpoint argmax_from (best : Q) (besti i : nat) (l : list Q) : nat :=
  match l with
  | [] => besti
  | x :: l' =>
      if Qltb best x then argmax_from x i (S i) l'
      else argmax_from best besti (S i) l'
  end.

Definition idxmax (l : list Q) : result nat :=
  match l with
  | [] => Err (ValueError "attempt to get argmax of an empty sequence")
  | x :: l' => Ok (argmax_from x 0 1 l')
  end.

(** [Series.pct_change()]: [x / x.shift(1) - 1], NaN in the first place. *)
Fixpoint pct_from (prev : Q) (l : list Q) : list fval :=
  match l with
  | [] => []
  | x :: l' => fsub (fdiv x prev) 1 :: pct_from x l'
  end.

Definition pct_change (l : list Q) : list fval :=
  match l with
  | [] => []
  | x :: l' => NaN :: pct_from x l'
  end.

(** [a] may stand before [b] in descending order of the column. *)
Definition geb {A : Type} (column : A -> Q) (a b : A) : bool :=
  Qle_bool (column b) (column a).

(** [DataFrame.nlargest(n, column)] with the default [keep='first']: the
    first [n] rows of the stable descending order; nothing when [n <= 0]. *)
Definition nlargest {A : Type} (n : Z) (column : A -> Q) (df : list A) : list A :=
  firstn (Z.to_nat n) (sort (geb column) df).

(* ================================================================== *)
(** ** analyze_sales_trends *)

Module Monthly.
Record row : Type := mk {
  Year : Z;
  Month : Z;
  Total_Revenue : Q;
  Total_Transactions : nat;
  Avg_Transaction_Value : Q;
  Unique_Customers : nat;
  Unique_Products : nat;
  YearMonth : string;
  Date : Z;
  Revenue_Growth : fval;
  Customer_Growth : fval
}.

Definition set_growth (r : row) (rg cg : fval) : row :=
  {| Year := Year r; Month := Month r;
     Total_Revenue := Total_Revenue r;
     Total_Transactions := Total_Transactions r;
     Avg_Transaction_Value := Avg_Transaction_Value r;
     Unique_Customers := Unique_Customers r;
     Unique_Products := Unique_Products r;
     YearMonth := YearMonth r; Date := Date r;
     Revenue_Growth := rg; Customer_Growth := cg |}.
End Monthly.

Definition Z_astype_str (z : Z) : string := NilZero.string_of_int (Z.to_int z).

Definition zfill2 (s : string) : string :=
  if (String.length s <? 2)%nat then ("0" ++ s)%string else s.

Definition year_month_text (y m : Z) : string :=
  (Z_astype_str y ++ "-" ++ zfill2 (Z_astype_str m))%string.

(** [pd.to_datetime] of a [YYYY-MM] text: midnight of the first day of that
    month; a month outside 1..12 does not parse.  The year is meant to be
    one that a timestamp can hold and that prints with four digits. *)
Definition to_datetime_ym (y m : Z) : result Z :=
  if (1 <=? m) && (m <=? 12)
  then Ok (seconds_per_day * days_from_civil y m 1)
  else Err (ValueError (year_month_text y m)).

(** One aggregated row per (Year, Month) group, after [.round(2)] and
    [reset_index], with its [YearMonth] and [Date]; growth not yet filled. *)
Definition monthly_row (g : (Z * Z) * list Row) (date : Z) : Monthly.row :=
  let '((y, m), rows) := g in
  {| Monthly.Year := y;
     Monthly.Month := m;
     Monthly.Total_Revenue := round2 (Qsum (map TotalAmount rows));
     Monthly.Total_Transactions := List.length rows;
     Monthly.Avg_Transaction_Value := round2 (Qmean (map TotalAmount rows));
     Monthly.Unique_Customers := nunique (map CustomerID rows);
     Monthly.Unique_Products := nunique (map StockCode rows);
     Monthly.YearMonth := year_month_text y m;
     Monthly.Date := date;
     Monthly.Revenue_Growth := NaN;
     Monthly.Customer_Growth := NaN |}.

Definition dated_monthly_row (g : (Z * Z) * list Row) : result Monthly.row :=
  date <- to_datetime_ym (fst (fst g)) (snd (fst g)) ;;
  Ok (monthly_row g date).

Fixpoint mapM {A B : Type} (f : A -> result B) (l : list A) : result (list B) :=
  match l with
  | [] => Ok []
  | x :: l' => y <- f x ;; ys <- mapM f l' ;; Ok (y :: ys)
  end.

(** [sort_values('Date')].  The dates of the aggregated frame are pairwise
    distinct, so the result does not depend on the sorting algorithm. *)
Definition sort_values_Date (ms : list Monthly.row) : list Monthly.row :=
  sort (fun a b => Monthly.Date a <=? Monthly.Date b) ms.

Definition times100 (v : fval) : fval := fmul_pos v 100.

Definition nat_to_Q (n : nat) : Q := inject_Z (Z.of_nat n).

(** Fills [Revenue_Growth] and [Customer_Growth] from the sorted frame. *)
Definition growth_rates (ms : list Monthly.row) : list Monthly.row :=
  let rg := map times100 (pct_change (map Monthly.Total_Revenue ms)) in
  let cg := map times100
              (pct_change (map (fun r => nat_to_Q (Monthly.Unique_Customers r)) ms)) in
  map (fun t => Monthly.set_growth (fst t) (fst (snd t)) (snd (snd t)))
      (combine ms (combine rg cg)).

Definition ym_key (r : Row) : Z * Z := (Year r, Month r).

Definition analyze_sales_trends (df : list Row) : result (list Monthly.row) :=
  let groups := groupby ym_eq_dec ym_leb ym_key df in
  aggregated <- mapM dated_monthly_row groups ;;
  let monthly_sales := growth_rates (sort_values_Date aggregated) in
  (* the "Best Month" line of the printed summary *)
  _ <- idxmax (map Monthly.Total_Revenue monthly_sales) ;;
  Ok monthly_sales.

(* ================================================================== *)
(** ** plot_top_products (the table it builds and returns) *)

Definition fround2 (v : fval) : fval :=
  match v with Fin q => Fin (round2 q) | _ => v end.

Module Product.
Record row : Type := mk {
  StockCode : string;
  Description : string;
  Total_Quantity_Sold : Z;
  Total_Revenue : Q;
  Number_of_Orders : nat;
  Unique_Customers : nat;
  Avg_Unit_Price : Q;
  Revenue_per_Customer : fval;
  Avg_Quantity_per_Order : fval
}.
End Product.

Definition product_key (r : Row) : string * string := (StockCode r, Description r).

Definition product_row (g : (string * string) * list Row) : Product.row :=
  let '((code, desc), rows) := g in
  let Total_Quantity_Sold := Zsum (map Quantity rows) in
  let Total_Revenue := round2 (Qsum (map TotalAmount rows)) in
  let Number_of_Orders := nunique (map InvoiceNo rows) in
  let Unique_Customers := nunique (map CustomerID rows) in
  {| Product.StockCode := code;
     Product.Description := desc;
     Product.Total_Quantity_Sold := Total_Quantity_Sold;
     Product.Total_Revenue := Total_Revenue;
     Product.Number_of_Orders := Number_of_Orders;
     Product.Unique_Customers := Unique_Customers;
     Product.Avg_Unit_Price := round2 (Qmean (map UnitPrice rows));
     Product.Revenue_per_Customer :=
       fround2 (fdiv Total_Revenue (nat_to_Q Unique_Customers));
     Product.Avg_Quantity_per_Order :=
       fround2 (fdiv (inject_Z Total_Quantity_Sold) (nat_to_Q Number_of_Orders)) |}.

Definition product_analysis (df : list Row) : list Product.row :=
  map product_row (groupby ss_eq_dec ss_leb product_key df).

(** The charts and the printed details only read [top_products]. *)
Definition plot_top_products (df : list Row) (n : Z) : list Product.row :=
  nlargest n Product.Total_Revenue (product_analysis df).

(* ================================================================== *)
(** ** analyze_customer_behavior *)

(** [min] and [max] of a timestamp column; [None] is NaT. *)
Definition ts_min (l : list Z) : option Z :=
  match l with
  | [] => None
  | x :: l' => Some (fold_left Z.min l' x)
  end.

Definition ts_max (l : list Z) : option Z :=
  match l with
  | [] => None
  | x :: l' => Some (fold_left Z.max l' x)
  end.

(** [(last - first).days]; NaT propagates. *)
Definition span_days (first last : option Z) : option Z :=
  match first, last with
  | Some f, Some l => Some (timedelta_days (l - f))
  | _, _ => None
  end.

Module Customer.
Record row : Type := mk {
  CustomerID : string;
  Total_Orders : nat;
  Total_Spent : Q;
  Avg_Order_Value : Q;
  Total_Items : Z;
  First_Purchase : option Z;
  Last_Purchase : option Z;
  Unique_Products : nat;
  Customer_Lifetime_Days : option Z
}.
End Customer.

Definition customer_row (g : string * list Row) : Customer.row :=
  let '(cid, rows) := g in
  let First_Purchase := ts_min (map InvoiceDate rows) in
  let Last_Purchase := ts_max (map InvoiceDate rows) in
  {| Customer.CustomerID := cid;
     Customer.Total_Orders := nunique (map InvoiceNo rows);
     Customer.Total_Spent := round2 (Qsum (map TotalAmount rows));
     Customer.Avg_Order_Value := round2 (Qmean (map TotalAmount rows));
     Customer.Total_Items := Zsum (map Quantity rows);
     Customer.First_Purchase := First_Purchase;
     Customer.Last_Purchase := Last_Purchase;
     Customer.Unique_Products := nunique (map StockCode rows);
     Customer.Customer_Lifetime_Days := span_days First_Purchase Last_Purchase |}.

Definition analyze_customer_behavior (df : list Row) : list Customer.row :=
  map customer_row (groupby string_dec String.leb CustomerID df).

(** [int(len(customer_stats)*0.1)]: the float product truncated toward zero,
    which is the integer quotient by ten for every count a frame can have. *)
Definition top_decile_count (customers : nat) : Z := Z.of_nat customers / 10.

Definition top_customers (customer_stats : list Customer.row) : list Customer.row :=
  nlargest (top_decile_count (List.length customer_stats))
           Customer.Total_Spent customer_stats.

(** The share printed by the "Top 10% customers contribute" line. *)
Definition top10_contribution (customer_stats : list Customer.row) : fval :=
  times100
    (fdiv (Qsum (map Customer.Total_Spent (top_customers customer_stats)))
          (Qsum (map Customer.Total_Spent customer_stats))).

(* ================================================================== *)
(** ** generate_comprehensive_report *)

Record Report : Type := mkReport {
  total_revenue : Q;
  total_transactions : nat;
  unique_customers : nat;
  unique_products : nat;
  date_range : option Z;
  avg_daily_revenue : fval;
  revenue_per_customer : fval;
  avg_transaction_value : fval;
  best_day : Z;
  best_day_sales : Q;
  peak_hour : Z;
  peak_hour_sales : Q;
  best_dow : string;
  best_dow_sales : Q
}.

(** [df.groupby(key)['TotalAmount'].sum()] as a list of (label, sum). *)
Definition sales_by {K : Type} (K_eq_dec : forall a b : K, {a = b} + {a <> b})
    (K_leb : K -> K -> bool) (key : Row -> K) (df : list Row) : list (K * Q) :=
  map (fun g => (fst g, Qsum (map TotalAmount (snd g))))
      (groupby K_eq_dec K_leb key df).

(** The label and value at [idxmax]. *)
Definition peak {K : Type} (default : K) (sales : list (K * Q)) : result (K * Q) :=
  i <- idxmax (map snd sales) ;;
  Ok (nth i sales (default, 0%Q)).

Definition generate_comprehensive_report (df : list Row) : result Report :=
  let total_revenue := Qsum (map TotalAmount df) in
  let total_transactions := List.length df in
  let unique_customers := nunique (map CustomerID df) in
  let unique_products := nunique (map StockCode df) in
  let date_range :=
    span_days (ts_min (map InvoiceDate df)) (ts_max (map InvoiceDate df)) in
  let avg_daily_revenue := fdiv_opt total_revenue date_range in
  let revenue_per_customer := fdiv total_revenue (nat_to_Q unique_customers) in
  let avg_transaction_value := fdiv total_revenue (nat_to_Q total_transactions) in
  daily <- peak 0 (sales_by Z.eq_dec Z.leb (fun r => days_of (InvoiceDate r)) df) ;;
  hourly <- peak 0 (sales_by Z.eq_dec Z.leb Hour df) ;;
  dow <- peak EmptyString (sales_by string_dec String.leb DayOfWeek df) ;;
  Ok {| total_revenue := total_revenue;
        total_transactions := total_transactions;
        unique_customers := unique_customers;
        unique_products := unique_products;
        date_range := date_range;
        avg_daily_revenue := avg_daily_revenue;
        revenue_per_customer := revenue_per_customer;
        avg_transaction_value := avg_transaction_value;
        best_day := fst daily;
        best_day_sales := snd daily;
        peak_hour := fst hourly;
        peak_hour_sales := snd hourly;
        best_dow := fst dow;
        best_dow_sales := snd dow |}.

(* ================================================================== *)
(** ** main *)

Record Results : Type := mkResults {
  cleaned_data : list Row;
  monthly_trends : list Monthly.row;
  top_products : list Product.row;
  customer_analysis : list Customer.row
}.

(** The body of the [try] block. *)
Definition main_body (src : excel_source) : result Results :=
  df_clean <- load_and_clean_data src ;;
  monthly_trends <- analyze_sales_trends df_clean ;;
  let top_products := plot_top_products df_clean 10 in
  let customer_analysis := analyze_customer_behavior df_clean in
  _ <- generate_comprehensive_report df_clean ;;
  Ok {| cleaned_data := df_clean;
        monthly_trends := monthly_trends;
        top_products := top_products;
        customer_analysis := customer_analysis |}.

(** What a caller of [main] observes: the line the handler printed, if any,
    and the returned value ([None] is Python's [None]). *)
Record Outcome : Type := mkOutcome {
  handler_output : option string;
  returned : option Results
}.

(** [try: ... except Exception as e: print(...); return None].  The printed
    line is kept without its leading pictogram. *)
Definition main (src : excel_source) : Outcome :=
  match main_body src with
  | Ok results => {| handler_output := None; returned := Some results |}
  | Err e =>
      {| handler_output := Some ("Error during analysis: " ++ str_exn e)%string;
         returned := None |}
  end.

(* ================================================================== *)
(** ** Vocabulary of the properties *)

(** Feeding a cleaned frame back as a sheet: its original columns. *)
Definition as_raw (r : Row) : RawRecord :=
  {| raw_InvoiceNo := InvoiceNo r;
     raw_StockCode := StockCode r;
     raw_Description := Some (Description r);
     raw_Quantity := Quantity r;
     raw_InvoiceDate := InvoiceDate r;
     raw_UnitPrice := UnitPrice r;
     raw_CustomerID := Some (CustomerID r) |}.

(** Strict chronological order of two (year, month) keys. *)
Definition ym_lt (a b : Z * Z) : Prop :=
  fst a < fst b \/ (fst a = fst b /\ snd a < snd b).

Definition monthly_key (m : Monthly.row) : Z * Z :=
  (Monthly.Year m, Monthly.Month m).

(** The month column of a frame holds calendar months. *)
Definition months_in_range (df : list Row) : Prop :=
  Forall (fun r => 1 <= Month r <= 12) df.

(** The year column of a frame holds years whose every month pandas can
    hold as a timestamp, so that the [YYYY-MM] text has a four-digit year
    and is in range. *)
Definition years_in_range (df : list Row) : Prop :=
  Forall (fun r => 1678 <= Year r <= 2261) df.

(** The revenue of a period before any rounding: the sum of the totals of
    the frame's rows of that (year, month). *)
Definition period_revenue (df : list Row) (k : Z * Z) : Q :=
  Qsum (map TotalAmount (group_rows ym_eq_dec ym_key k df)).

(** Percentage change of [cur] against [prev], as a plain quotient. *)
Definition growth_percent (prev cur : Q) : Q := ((cur - prev) / prev * 100)%Q.

(** The distinct values of a key over a frame. *)
Definition distinct_keys {K : Type} (K_eq_dec : forall a b : K, {a = b} + {a <> b})
    (key : Row -> K) (df : list Row) : list K :=
  nodup K_eq_dec (map key df).

(** The frame before the growth columns: one row per period, in key order,
    dated the first day of its month. *)
Definition aggregated_periods (df : list Row) : list Monthly.row :=
  map (fun g => monthly_row g (seconds_per_day * days_from_civil (fst (fst g)) (snd (fst g)) 1))
      (groupby ym_eq_dec ym_leb ym_key df).

(** The rows of a table whose column holds the value [v]. *)
Definition tied {A : Type} (column : A -> Q) (v : Q) (r : A) : bool :=
  Qeq_bool (column r) v.

(** Descending order on a column. *)
Definition descending {A : Type} (column : A -> Q) (l : list A) : Prop :=
  StronglySorted (fun a b => (column b <= column a)%Q) l.

(** The value read off a sorted series at a fractional position: the entry
    at the floor of the position, moved toward the next entry by the
    fraction. *)
Definition interpolate (s : list Q) (d : Q) (pos : Q) : Q :=
  let lo := Qfloor pos in
  let a := nth (Z.to_nat lo) s d in
  let b := nth (Z.to_nat lo + 1) s a in
  (a + (b - a) * (pos - inject_Z lo))%Q.

(** The last position of a series of [n] entries. *)
Definition last_position (s : list Q) : Q := inject_Z (Z.of_nat (List.length s) - 1).

(** The three tests of the cleaner on one sheet row: a customer id is
    present, the derived row is valid, and its total is inside the fences
    taken from the validity-filtered frame of the whole sheet. *)
Definition kept_by_cleaner (df : list RawRecord) (r : RawRecord) : bool :=
  notna (raw_CustomerID r)
  && valid_mask (derive r)
  && inlier_mask (iqr_bounds (map TotalAmount (valid_rows df))) (derive r).




(** Whether a row's key is one of the listed keys. *)
Definition key_among {K : Type} (K_eq_dec : forall a b : K, {a = b} + {a <> b})
    (key : Row -> K) (ks : list K) (r : Row) : bool :=
  if in_dec K_eq_dec (key r) ks then true else false.

(** The key of a row of the product table. *)
Definition product_row_key (p : Product.row) : string * string :=
  (Product.StockCode p, Product.Description p).

(** The summed totals of the rows of a frame that carry the key [k]. *)
Definition sales_of {K : Type} (K_eq_dec : forall a b : K, {a = b} + {a <> b})
    (key : Row -> K) (k : K) (df : list Row) : Q :=
  Qsum (map TotalAmount (group_rows K_eq_dec key k df)).

(** The calendar day of a row, as a day number. *)
Definition invoice_day (r : Row) : Z := days_of (InvoiceDate r).

(* ================================================================== *)
(** ** The download scripts

    [download_data.py] and [scripts/download_data.py] touch two paths, the
    directory [data] and the file [data/online_retail.xlsx], and issue at
    most one HTTP request.  The file system is the state of those two paths;
    the network is the outcome the request has if it is issued.  Permissions
    and disk space are not modelled: an operation fails only for the shape
    of the paths. *)

Module Download.

Inductive node : Type :=
| File (content : string)
| Directory.

(** The state of [data] and of [data/online_retail.xlsx]. *)
Inductive filesystem : Type :=
| NoData                               (* [data] does not exist *)
| DataIsFile (content : string)        (* [data] is a regular file *)
| DataDir (dataset : option node).     (* [data] is a directory *)

(** What [requests.get(url)] does when called. *)
Inductive network : Type :=
| ConnectionFailed
| Responded (status_code : Z) (content : string).

Inductive error : Type :=
| ConnectionError
| HTTPError (status_code : Z)
| FileExistsError
| FileNotFoundError
| NotADirectoryError
| IsADirectoryError.

(** [requests.exceptions.RequestException] and its subclasses. *)
Definition is_RequestException (e : error) : bool :=
  match e with
  | ConnectionError | HTTPError _ => true
  | _ => false
  end.

(** [os.path.exists(dataset_path)] *)
Definition exists_dataset (fs : filesystem) : bool :=
  match fs with
  | DataDir (Some _) => true
  | _ => false
  end.

(** [os.makedirs('data', exist_ok=True)] *)
Definition makedirs (fs : filesystem) : filesystem + error :=
  match fs with
  | NoData => inl (DataDir None)
  | DataIsFile _ => inr FileExistsError
  | DataDir _ => inl fs
  end.

(** [with open(dataset_path, 'wb') as file: file.write(content)] *)
Definition write_dataset (content : string) (fs : filesystem) : filesystem + error :=
  match fs with
  | NoData => inr FileNotFoundError
  | DataIsFile _ => inr NotADirectoryError
  | DataDir (Some Directory) => inr IsADirectoryError
  | DataDir _ => inl (DataDir (Some (File content)))
  end.

(** [response.raise_for_status()]: client and server error codes raise. *)
Definition raise_for_status (status_code : Z) : option error :=
  if (400 <=? status_code) && (status_code <? 600)
  then Some (HTTPError status_code)
  else None.

(** How a script ends: with one of its closing messages, or with an
    exception that nothing catches. *)
Inductive ending : Type :=
| AlreadyExists
| Downloaded
| ErrorDownloading (e : error)
| ErrorSaving (e : error)
| Uncaught (e : error).

Record run : Type := mkRun {
  fs_after : filesystem;
  requested : bool;
  ended : ending
}.

(** The [try] block of [scripts/download_data.py], on the file system left
    by [makedirs]. *)
Definition try_download (fs : filesystem) (net : network) : filesystem + error :=
  match net with
  | ConnectionFailed => inr ConnectionError
  | Responded status_code content =>
      match raise_for_status status_code with
      | Some e => inr e
      | None => write_dataset content fs
      end
  end.

(** [scripts/download_data.py] *)
Definition guarded_script (fs : filesystem) (net : network) : run :=
  if exists_dataset fs
  then {| fs_after := fs; requested := false; ended := AlreadyExists |}
  else
    match makedirs fs with
    | inr e => {| fs_after := fs; requested := false; ended := Uncaught e |}
    | inl fs1 =>
        match try_download fs1 net with
        | inl fs2 => {| fs_after := fs2; requested := true; ended := Downloaded |}
        | inr e =>
            {| fs_after := fs1; requested := true;
               ended := if is_RequestException e
                        then ErrorDownloading e else ErrorSaving e |}
        end
    end.


(** The bytes of the dataset file, if it is a file. *)
Definition dataset_content (fs : filesystem) : option string :=
  match fs with
  | DataDir (Some (File content)) => Some content
  | _ => None
  end.

Definition ok_status (status_code : Z) : Prop := ~ (400 <= status_code < 600).

End Download.

(* ================================================================== *)
(** ** Sample sheets *)

Definition midnight (y m d : Z) : Z := seconds_per_day * days_from_civil y m d.

Definition sale (invoice code : string) (quantity : Z) (price : Q)
    (customer : option string) (date : Z) : RawRecord :=
  {| raw_InvoiceNo := invoice;
     raw_StockCode := code;
     raw_Description := Some "item"%string;
     raw_Quantity := quantity;
     raw_InvoiceDate := date;
     raw_UnitPrice := price;
     raw_CustomerID := customer |}.

(** Three rows: one good, one return, one without customer. *)
Definition sheet_three : list RawRecord :=
  [ sale "1" "a" 5 2 (Some "A"%string) (midnight 2021 1 5);
    sale "2" "b" (-1) 3 (Some "B"%string) (midnight 2021 1 6);
    sale "3" "c" 2 5 None (midnight 2021 1 7) ].

Definition row_A : Row :=
  derive (sale "1" "a" 5 2 (Some "A"%string) (midnight 2021 1 5)).

(** Six sales of one item with totals 1, 1, 1, 1, 2 and 4. *)
Definition sheet_tight : list RawRecord :=
  map (fun p => sale "1" "a" 1 p (Some "A"%string) (midnight 2021 1 5))
      [1; 1; 1; 1; 2; 4]%Q.

(** January revenue 1.004, February revenue 2. *)
Definition sheet_fraction : list RawRecord :=
  [ sale "1" "a" 1 (1004 # 1000) (Some "A"%string) (midnight 2021 1 5);
    sale "2" "a" 2 1 (Some "A"%string) (midnight 2021 2 5) ].

(** January revenue 0.004, February revenue 1. *)
Definition sheet_tiny : list RawRecord :=
  [ sale "1" "a" 1 (4 # 1000) (Some "A"%string) (midnight 2021 1 5);
    sale "2" "b" 1 1 (Some "B"%string) (midnight 2021 2 5) ].

(** A single sale. *)
Definition sheet_single : list RawRecord :=
  [ sale "1" "a" 5 2 (Some "A"%string) (midnight 2021 1 5) ].

(** Two sales of one customer, three and a half days apart. *)
Definition sheet_two_visits : list RawRecord :=
  [ sale "1" "a" 5 2 (Some "A"%string) (midnight 2021 1 5);
    sale "2" "b" 1 3 (Some "A"%string) (midnight 2021 1 8 + 43200) ].

(** One sale without a customer id. *)
Definition sheet_anonymous : list RawRecord :=
  [ sale "1" "a" 1 1 None (midnight 2021 1 5) ].

(** Three sales with the same total, 6, written as 1 x 6, 2 x 3 and 4 x 3/2. *)
Definition sheet_equal : list RawRecord :=
  [ sale "1" "a" 1 6 (Some "A"%string) (midnight 2021 1 5);
    sale "2" "b" 2 3 (Some "B"%string) (midnight 2021 1 6);
    sale "3" "c" 4 (3 # 2) (Some "C"%string) (midnight 2021 1 7) ].

(** The customer row of "A" in the single-sale sheet. *)
Definition customer_single : Customer.row :=
  customer_row ("A"%string,
                group_rows string_dec CustomerID "A"%string (cleaned sheet_single)).

(** The customer row of "A" in the two-visit sheet. *)
Definition customer_A : Customer.row :=
  customer_row ("A"%string,
                group_rows string_dec CustomerID "A"%string (cleaned sheet_two_visits)).

(** The trend table of the two-month sheet and its January row. *)
Definition trends_fraction : list Monthly.row :=
  growth_rates (aggregated_periods (cleaned sheet_fraction)).

Definition january_fraction : Monthly.row :=
  monthly_row ((2021, 1), group_rows ym_eq_dec ym_key (2021, 1) (cleaned sheet_fraction))
              (midnight 2021 1 1).

(** The product row of item "a" in the two-month sheet. *)
Definition product_a_fraction : Product.row :=
  product_row (("a", "item")%string,
               group_rows ss_eq_dec product_key ("a", "item")%string
                          (cleaned sheet_fraction)).

(** The report on the two-visit sheet. *)
Definition report_two_visits : Report :=
  match generate_comprehensive_report (cleaned sheet_two_visits) with
  | Ok report => report
  | Err _ => mkReport 0 0 0 0 None NaN NaN NaN 0 0 0 0 EmptyString 0
  end.

(* ================================================================== *)
(** * Properties *)

(** ** Comparisons on the rationals *)

Lemma Qltb_lt x y : Qltb x y = true <-> (x < y)%Q.
Proof.
  unfold Qltb. rewrite negb_true_iff. split; intro H.
  - apply Qnot_le_lt. intro L. apply Qle_bool_iff in L. congruence.
  - destruct (Qle_bool y x) eqn:E; [|reflexivity].
    apply Qle_bool_iff in E. exfalso. exact (Qlt_not_le _ _ H E).
Qed.

Lemma Qltb_false_le x y : Qltb x y = false <-> (y <= x)%Q.
Proof.
  unfold Qltb. rewrite negb_false_iff. apply Qle_bool_iff.
Qed.

(** ** Lists *)

Lemma filter_all {A : Type} (f : A -> bool) (l : list A) :
  (forall x, In x l -> f x = true) -> filter f l = l.
Proof.
  induction l as [|a l IH]; intro H; simpl; [reflexivity|].
  rewrite (H a (or_introl eq_refl)). f_equal. apply IH.
  intros x Hx. apply H. now right.
Qed.

Lemma filter_firstn_prefix {A : Type} (f : A -> bool) (n : nat) (l : list A) :
  exists k, filter f (firstn n l) = firstn k (filter f l).
Proof.
  revert n. induction l as [|a l IH]; intros [|n]; simpl.
  - now exists 0%nat.
  - now exists 0%nat.
  - now exists 0%nat.
  - destruct (IH n) as [k Hk]. destruct (f a).
    + exists (S k). simpl. now rewrite Hk.
    + now exists k.
Qed.

Lemma firstn_In {A : Type} (n : nat) (l : list A) x : In x (firstn n l) -> In x l.
Proof.
  intro H. rewrite <- (firstn_skipn n l). apply in_or_app. now left.
Qed.

Lemma skipn_In {A : Type} (n : nat) (l : list A) x : In x (skipn n l) -> In x l.
Proof.
  intro H. rewrite <- (firstn_skipn n l). apply in_or_app. now right.
Qed.

(** ** The stable insertion sort *)

Section SortFacts.
Context {A : Type} (leb : A -> A -> bool).

Lemma insert_perm x l : Permutation (insert leb x l) (x :: l).
Proof.
  induction l as [|y l IH]; simpl; [reflexivity|].
  destruct (leb x y); [reflexivity|].
  rewrite IH. apply perm_swap.
Qed.

Lemma sort_perm l : Permutation (sort leb l) l.
Proof.
  induction l as [|x l IH]; simpl; [reflexivity|].
  rewrite insert_perm. now constructor.
Qed.

Lemma sort_length l : List.length (sort leb l) = List.length l.
Proof. apply Permutation_length, sort_perm. Qed.

Lemma sort_In x l : In x (sort leb l) <-> In x l.
Proof.
  split; apply Permutation_in; [|symmetry]; apply sort_perm.
Qed.

(** Sorting a frame that is already in order changes nothing. *)
Lemma sort_sorted_id l :
  Sorted (fun a b => leb a b = true) l -> sort leb l = l.
Proof.
  induction 1 as [|x l Hs IH Hhd]; simpl; [reflexivity|].
  rewrite IH. destruct Hhd as [|y l' Hxy]; simpl; [reflexivity|].
  now rewrite Hxy.
Qed.

Section Total.
Hypothesis leb_total : forall a b, leb a b = true \/ leb b a = true.

Lemma insert_sorted x l :
  Sorted (fun a b => leb a b = true) l ->
  Sorted (fun a b => leb a b = true) (insert leb x l).
Proof.
  induction 1 as [|y l Hs IH Hhd]; simpl.
  - repeat constructor.
  - destruct (leb x y) eqn:E.
    + constructor; [now constructor | now constructor].
    + constructor; [exact IH|].
      destruct (leb_total x y) as [F|Hyx]; [congruence|].
      destruct Hhd as [|z l' Hyz]; simpl.
      * now constructor.
      * destruct (leb x z); now constructor.
Qed.

Lemma sort_sorted l : Sorted (fun a b => leb a b = true) (sort leb l).
Proof.
  induction l as [|x l IH]; simpl; [constructor|].
  now apply insert_sorted.
Qed.
End Total.

(** Stability: a class of rows that the order cannot tell apart keeps its
    input order.  [cls] is such a class when a row of the class is never
    placed after a row of the class it meets, i.e. [leb x y] holds inside. *)
Lemma insert_filter_class (cls : A -> bool) x l :
  (forall y, cls x = true -> cls y = true -> leb x y = true) ->
  filter cls (insert leb x l) = filter cls (x :: l).
Proof.
  intro Hcls. induction l as [|y l IH]; simpl; [reflexivity|].
  destruct (leb x y) eqn:E; simpl; [reflexivity|].
  simpl in IH. rewrite IH.
  destruct (cls x) eqn:Cx, (cls y) eqn:Cy; try reflexivity.
  rewrite (Hcls y eq_refl Cy) in E. discriminate.
Qed.

Lemma sort_filter_class (cls : A -> bool) l :
  (forall x y, cls x = true -> cls y = true -> leb x y = true) ->
  filter cls (sort leb l) = filter cls l.
Proof.
  intro Hcls. induction l as [|x l IH]; simpl; [reflexivity|].
  rewrite insert_filter_class by (intros y; apply Hcls).
  simpl. now rewrite IH.
Qed.
End SortFacts.

(* ================================================================== *)
(** ** DataCleaner *)

Lemma cleaned_eq df :
  cleaned df =
  filter (inlier_mask (iqr_bounds (map TotalAmount (valid_rows df)))) (valid_rows df).
Proof. reflexivity. Qed.

Lemma derive_as_raw_derive r : derive (as_raw (derive r)) = derive r.
Proof. destruct r as [i s [d|] q t p [c|]]; reflexivity. Qed.

Lemma valid_rows_derived df r :
  In r (valid_rows df) -> valid_mask r = true /\ exists r0, r = derive r0.
Proof.
  unfold valid_rows. intro H. apply filter_In in H. destruct H as [H V].
  split; [exact V|]. apply in_map_iff in H. destruct H as [r0 [E _]].
  now exists r0.
Qed.

Lemma cleaned_valid df r : In r (cleaned df) -> In r (valid_rows df).
Proof. rewrite cleaned_eq. intro H. now apply filter_In in H. Qed.

(** On a sheet with at least one row the cleaner returns the cleaned frame. *)
Lemma load_and_clean_data_returns (df : list RawRecord) :
  df <> [] -> load_and_clean_data (Sheet df) = Ok (cleaned df).
Proof.
  intro Hne.
  destruct df as [|r df]; [now elim Hne|].
  unfold load_and_clean_data. cbn [read_excel bind].
  unfold cleaned. destruct (clean_stages (r :: df)) as [d st] eqn:E.
  assert (Hi : initial_rows st = S (List.length df)).
  { change st with (snd (d, st)). rewrite <- E. reflexivity. }
  rewrite Hi. reflexivity.
Qed.

(** C1. Conservation law: on every sheet the rows kept plus the rows dropped
    for a missing customer id, for invalid quantity/price/total and as
    outliers are exactly the rows read.  The function hands the cleaned frame
    back on every sheet with at least one row; on a sheet without rows its
    retention-rate line raises before the return. *)
Theorem conservation_law (df : list RawRecord) :
  (List.length (cleaned df)
   + (removed_customers (cleaning_statistics df)
      + removed_invalid (cleaning_statistics df)
      + removed_outliers (cleaning_statistics df)) = List.length df)%nat
  /\ initial_rows (cleaning_statistics df) = List.length df
  /\ load_and_clean_data (Sheet df) =
       match df with
       | [] => Err ZeroDivisionError
       | _ :: _ => Ok (cleaned df)
       end.
Proof.
  split; [|split].
  - unfold cleaned, cleaning_statistics, clean_stages. cbn [fst snd].
    cbn [removed_customers removed_invalid removed_outliers].
    rewrite length_map.
    set (d1 := dropna_CustomerID df).
    set (d6 := filter valid_mask (map derive d1)).
    set (d7 := filter _ d6).
    assert (H1 : (List.length d1 <= List.length df)%nat)
      by apply filter_length_le.
    assert (H6 : (List.length d6 <= List.length d1)%nat).
    { subst d6. rewrite <- (length_map derive d1). apply filter_length_le. }
    assert (H7 : (List.length d7 <= List.length d6)%nat)
      by apply filter_length_le.
    lia.
  - reflexivity.
  - destruct df as [|r df]; [reflexivity|].
    apply load_and_clean_data_returns. discriminate.
Qed.

(** C2. Invariant of the cleaned frame: every row has a positive quantity, a
    positive unit price, a total that is the product of the two and positive,
    and a total inside [Q1 - 1.5 IQR, Q3 + 1.5 IQR], where the quartiles are
    those of the totals of the frame left by the validity filter. *)
Theorem cleaned_record_invariant (df : list RawRecord) (r : Row) :
  In r (cleaned df) ->
  0 < Quantity r
  /\ (0 < UnitPrice r)%Q
  /\ TotalAmount r = (inject_Z (Quantity r) * UnitPrice r)%Q
  /\ (0 < TotalAmount r)%Q
  /\ exists Q1 Q3 : Q,
       quantile (1 # 4) (map TotalAmount (valid_rows df)) = Some Q1
       /\ quantile (3 # 4) (map TotalAmount (valid_rows df)) = Some Q3
       /\ (Q1 - (3 # 2) * (Q3 - Q1) <= TotalAmount r)%Q
       /\ (TotalAmount r <= Q3 + (3 # 2) * (Q3 - Q1))%Q.
Proof.
  intro H. pose proof (cleaned_valid _ _ H) as Hv.
  destruct (valid_rows_derived _ _ Hv) as [V [r0 E]].
  unfold valid_mask in V. apply andb_true_iff in V. destruct V as [V Vt].
  apply andb_true_iff in V. destruct V as [Vq Vp].
  apply Z.ltb_lt in Vq. apply Qltb_lt in Vp. apply Qltb_lt in Vt.
  repeat split; try assumption.
  - subst r. reflexivity.
  - rewrite cleaned_eq in H. apply filter_In in H. destruct H as [_ M].
    unfold inlier_mask, iqr_bounds in M.
    destruct (quantile (1 # 4) _) as [Q1|]; [|discriminate].
    destruct (quantile (3 # 4) _) as [Q3|]; [|discriminate].
    apply andb_true_iff in M. destruct M as [Ml Mu].
    apply Qle_bool_iff in Ml. apply Qle_bool_iff in Mu.
    exists Q1, Q3. repeat split; assumption.
Qed.

Lemma cleaned_record_invariant_witness :
  0 < Quantity row_A
  /\ (0 < UnitPrice row_A)%Q
  /\ TotalAmount row_A = (inject_Z (Quantity row_A) * UnitPrice row_A)%Q
  /\ (0 < TotalAmount row_A)%Q
  /\ exists Q1 Q3 : Q,
       quantile (1 # 4) (map TotalAmount (valid_rows sheet_three)) = Some Q1
       /\ quantile (3 # 4) (map TotalAmount (valid_rows sheet_three)) = Some Q3
       /\ (Q1 - (3 # 2) * (Q3 - Q1) <= TotalAmount row_A)%Q
       /\ (TotalAmount row_A <= Q3 + (3 # 2) * (Q3 - Q1))%Q.
Proof.
  apply (cleaned_record_invariant sheet_three row_A).
  vm_compute. left. reflexivity.
Defined.

(** ** Cleaning a cleaned frame again *)

Lemma dropna_as_raw (rows : list Row) :
  dropna_CustomerID (map as_raw rows) = map as_raw rows.
Proof.
  apply filter_all. intros x Hx. apply in_map_iff in Hx.
  destruct Hx as [r [E _]]. subst x. reflexivity.
Qed.

Lemma as_raw_described (rows : list Row) :
  List.length (filter (fun r => negb (notna (raw_Description r))) (map as_raw rows))
  = 0%nat.
Proof. induction rows as [|r l IH]; [reflexivity|exact IH]. Qed.

(** Reading a cleaned frame back and deriving its columns anew gives the
    same frame. *)
Lemma derive_as_raw_cleaned df :
  map derive (dropna_CustomerID (map as_raw (cleaned df))) = cleaned df.
Proof.
  rewrite dropna_as_raw, map_map.
  rewrite <- (map_id (cleaned df)) at 2. apply map_ext_in.
  intros r Hr. apply cleaned_valid, valid_rows_derived in Hr.
  destruct Hr as [_ [r0 E]]. subst r. apply derive_as_raw_derive.
Qed.

Lemma valid_rows_as_raw_cleaned df :
  valid_rows (map as_raw (cleaned df)) = cleaned df.
Proof.
  unfold valid_rows. rewrite derive_as_raw_cleaned.
  apply filter_all. intros r Hr.
  apply cleaned_valid, valid_rows_derived in Hr. tauto.
Qed.

(** C7 (as the code has it). Cleaning the cleaned frame again drops nothing
    at the missing-customer and invalid-value stages and fills no
    description: both counts are zero and the frame that reaches the outlier
    stage is the cleaned frame itself.  The outlier stage then takes its
    bound from that frame, and keeps a sub-frame of it. *)
Theorem reclean_early_stages_fixed (df : list RawRecord) :
  let again := map as_raw (cleaned df) in
  removed_customers (cleaning_statistics again) = 0%nat
  /\ missing_desc (cleaning_statistics again) = 0%nat
  /\ removed_invalid (cleaning_statistics again) = 0%nat
  /\ valid_rows again = cleaned df
  /\ cleaned again =
       filter (inlier_mask (iqr_bounds (map TotalAmount (cleaned df)))) (cleaned df).
Proof.
  intro again.
  assert (Hv : valid_rows again = cleaned df) by apply valid_rows_as_raw_cleaned.
  assert (Hd : dropna_CustomerID again = again) by apply dropna_as_raw.
  repeat split.
  - unfold cleaning_statistics, clean_stages. cbn [snd removed_customers].
    rewrite Hd. lia.
  - unfold cleaning_statistics, clean_stages. cbn [snd missing_desc].
    rewrite Hd. apply as_raw_described.
  - unfold cleaning_statistics, clean_stages. cbn [snd removed_invalid].
    fold (valid_rows again). rewrite Hv.
    unfold again. rewrite derive_as_raw_cleaned. lia.
  - exact Hv.
  - rewrite cleaned_eq, Hv. reflexivity.
Qed.

(** C7 fails as stated: of six sales with totals 1, 1, 1, 1, 2, 4 the first
    run drops the 4 and keeps the 2; the second run, on the first run's
    output, drops the 2. *)
Lemma reclean_drops_more :
  map TotalAmount (cleaned sheet_tight) = [1; 1; 1; 1; 2]%Q
  /\ removed_outliers (cleaning_statistics (map as_raw (cleaned sheet_tight))) = 1%nat
  /\ cleaned (map as_raw (cleaned sheet_tight)) <> cleaned sheet_tight.
Proof.
  split; [vm_compute; reflexivity|].
  split; [vm_compute; reflexivity|].
  intro H. apply (f_equal (@List.length Row)) in H. vm_compute in H. discriminate.
Qed.

(* ================================================================== *)
(** ** Calendar facts *)

Lemma dt_month_range ts : 1 <= dt_month ts <= 12.
Proof.
  unfold dt_month, civil_from_days. cbn zeta. cbn [fst snd].
  set (z := days_of ts + 719468).
  set (doe := z - z / 146097 * 146097).
  assert (Hdoe : 0 <= doe <= 146096).
  { subst doe. pose proof (Z.mod_pos_bound z 146097).
    pose proof (Z.div_mod z 146097). lia. }
  clearbody doe. clear z.
  set (yoe := (doe - doe / 1460 + doe / 36524 - doe / 146096) / 365).
  set (doy := doe - (365 * yoe + yoe / 4 - yoe / 100)).
  assert (Hdoy : 0 <= doy <= 365).
  { subst doy yoe. Z.to_euclidean_division_equations. lia. }
  clearbody doy.
  destruct (Z.ltb_spec ((5 * doy + 2) / 153) 10);
    Z.to_euclidean_division_equations; lia.
Qed.

(** The first days of two months are in the order of their (year, month). *)
Lemma days_from_civil_mono y m y' m' :
  1 <= m <= 12 -> 1 <= m' <= 12 ->
  y < y' \/ (y = y' /\ m < m') ->
  days_from_civil y m 1 < days_from_civil y' m' 1.
Proof.
  intros Hm Hm' H. unfold days_from_civil.
  destruct (Z.leb_spec m 2), (Z.leb_spec m' 2);
    Z.to_euclidean_division_equations; lia.
Qed.

(* ================================================================== *)
(** ** groupby facts *)

Section GroupByFacts.
Context {K : Type} (K_eq_dec : forall a b : K, {a = b} + {a <> b}).
Context (K_leb : K -> K -> bool) (key : Row -> K).

Lemma group_keys_In k df :
  In k (group_keys K_eq_dec K_leb key df) <-> exists r, In r df /\ key r = k.
Proof.
  unfold group_keys. rewrite sort_In, nodup_In, in_map_iff.
  split; intros [r [H1 H2]]; exists r; tauto.
Qed.

Lemma group_keys_NoDup df : NoDup (group_keys K_eq_dec K_leb key df).
Proof.
  unfold group_keys.
  apply (Permutation_NoDup (l := nodup K_eq_dec (map key df))).
  - symmetry. apply sort_perm.
  - apply NoDup_nodup.
Qed.

Lemma group_keys_length df :
  List.length (group_keys K_eq_dec K_leb key df)
  = List.length (nodup K_eq_dec (map key df)).
Proof. apply sort_length. Qed.

Lemma groupby_length df :
  List.length (groupby K_eq_dec K_leb key df)
  = List.length (nodup K_eq_dec (map key df)).
Proof. unfold groupby. rewrite length_map. apply group_keys_length. Qed.

Lemma groupby_keys df :
  map fst (groupby K_eq_dec K_leb key df) = group_keys K_eq_dec K_leb key df.
Proof. unfold groupby. rewrite map_map. apply map_id. Qed.

(** Every group holds at least one row, and only rows of its key. *)
Lemma groupby_In k rows df :
  In (k, rows) (groupby K_eq_dec K_leb key df) ->
  rows = group_rows K_eq_dec key k df
  /\ exists r, In r rows /\ In r df /\ key r = k.
Proof.
  unfold groupby. intro H. apply in_map_iff in H.
  destruct H as [k' [E Hk]]. inversion E; subst k' rows. clear E.
  split; [reflexivity|].
  apply group_keys_In in Hk. destruct Hk as [r [Hr Hkey]].
  exists r. split; [|tauto].
  unfold group_rows. apply filter_In. split; [exact Hr|].
  destruct (K_eq_dec (key r) k); [reflexivity|contradiction].
Qed.

Lemma group_rows_In r k df :
  In r (group_rows K_eq_dec key k df) <-> In r df /\ key r = k.
Proof.
  unfold group_rows. rewrite filter_In.
  destruct (K_eq_dec (key r) k); split; intros [H1 H2];
    (split; [exact H1|]); try reflexivity; try assumption; try discriminate.
  contradiction.
Qed.

Lemma groupby_nonempty df : df <> [] -> groupby K_eq_dec K_leb key df <> [].
Proof.
  intros Hne Hg. destruct df as [|r df]; [now apply Hne|].
  assert (Hin : In (key r) (group_keys K_eq_dec K_leb key (r :: df))).
  { apply group_keys_In. exists r. split; [now left|reflexivity]. }
  rewrite <- groupby_keys, Hg in Hin. exact Hin.
Qed.
End GroupByFacts.

Lemma nunique_pos (l : list string) : l <> [] -> (1 <= nunique l)%nat.
Proof.
  intro H. destruct l as [|x l]; [now elim H|].
  unfold nunique.
  assert (Hin : In x (nodup string_dec (x :: l))) by (apply nodup_In; now left).
  destruct (nodup string_dec (x :: l)); [destruct Hin | simpl; lia].
Qed.

(* ================================================================== *)
(** ** Order of the (year, month) keys *)

Lemma ym_leb_total a b : ym_leb a b = true \/ ym_leb b a = true.
Proof.
  unfold ym_leb. destruct a as [y m], b as [y' m']. cbn [fst snd].
  destruct (Z.ltb_spec y y'), (Z.ltb_spec y' y), (Z.eqb_spec y y'),
    (Z.eqb_spec y' y), (Z.leb_spec m m'), (Z.leb_spec m' m);
    simpl; auto; lia.
Qed.

Lemma ym_leb_spec a b :
  ym_leb a b = true <-> fst a < fst b \/ (fst a = fst b /\ snd a <= snd b).
Proof.
  unfold ym_leb. rewrite orb_true_iff, andb_true_iff.
  rewrite Z.ltb_lt, Z.eqb_eq, Z.leb_le. reflexivity.
Qed.

Lemma ym_leb_trans a b c :
  ym_leb a b = true -> ym_leb b c = true -> ym_leb a c = true.
Proof. rewrite !ym_leb_spec. lia. Qed.

Lemma ym_leb_neq_lt a b : ym_leb a b = true -> a <> b -> ym_lt a b.
Proof.
  rewrite ym_leb_spec. unfold ym_lt. destruct a as [y m], b as [y' m'].
  cbn [fst snd]. intros H Hne.
  assert (y = y' -> m <> m') by (intros -> ->; now apply Hne). lia.
Qed.

Lemma StronglySorted_NoDup_strict {A : Type} (le lt : A -> A -> Prop) l :
  (forall a b, le a b -> a <> b -> lt a b) ->
  StronglySorted le l -> NoDup l -> StronglySorted lt l.
Proof.
  intros Hlt Hs. induction Hs as [|a l Hs IH Hall]; intro Hnd; constructor.
  - apply IH. now inversion Hnd.
  - inversion Hnd as [|? ? Hnotin Hnd']; subst.
    rewrite Forall_forall in *. intros b Hb. apply Hlt; [now apply Hall|].
    intros ->. contradiction.
Qed.

Lemma group_keys_ym_sorted (key : Row -> Z * Z) df :
  StronglySorted (fun a b => ym_leb a b = true) (group_keys ym_eq_dec ym_leb key df).
Proof.
  apply Sorted_StronglySorted.
  - intros a b c. apply ym_leb_trans.
  - apply sort_sorted, ym_leb_total.
Qed.

Lemma group_keys_ym_strict (key : Row -> Z * Z) df :
  StronglySorted ym_lt (group_keys ym_eq_dec ym_leb key df).
Proof.
  apply (StronglySorted_NoDup_strict (fun a b => ym_leb a b = true)).
  - apply ym_leb_neq_lt.
  - apply group_keys_ym_sorted.
  - apply group_keys_NoDup.
Qed.

(* ================================================================== *)
(** ** TrendAnalyzer *)

Lemma mapM_pure {A B : Type} (f : A -> result B) (g : A -> B) (l : list A) :
  (forall x, In x l -> f x = Ok (g x)) -> mapM f l = Ok (map g l).
Proof.
  induction l as [|a l IH]; intro H; simpl; [reflexivity|].
  rewrite (H a (or_introl eq_refl)). cbn [bind].
  rewrite IH by (intros x Hx; apply H; now right). reflexivity.
Qed.

Lemma StronglySorted_map {A B : Type} (R : A -> A -> Prop) (R' : B -> B -> Prop)
    (f : A -> B) (l : list A) :
  (forall a b, In a l -> In b l -> R a b -> R' (f a) (f b)) ->
  StronglySorted R l -> StronglySorted R' (map f l).
Proof.
  intros Hf Hs. induction Hs as [|a l Hs IH Hall]; simpl; constructor.
  - apply IH. intros x y Hx Hy. apply Hf; now right.
  - rewrite Forall_forall in *. intros y Hy. apply in_map_iff in Hy.
    destruct Hy as [b [<- Hb]]. apply Hf; [now left | now right | now apply Hall].
Qed.

Lemma StronglySorted_of_map {A B : Type} (R : B -> B -> Prop) (f : A -> B)
    (l : list A) :
  StronglySorted R (map f l) -> StronglySorted (fun a b => R (f a) (f b)) l.
Proof.
  induction l as [|a l IH]; intro Hs; [constructor|].
  simpl in Hs. inversion Hs as [|? ? Hs' Hall]; subst.
  constructor; [now apply IH|].
  rewrite Forall_forall in *. intros x Hx. apply Hall. now apply in_map.
Qed.

Lemma pct_change_length l : List.length (pct_change l) = List.length l.
Proof.
  destruct l as [|x l]; [reflexivity|]. simpl. f_equal.
  revert x. induction l as [|y l IH]; intro x; simpl; [reflexivity|].
  now rewrite IH.
Qed.

Lemma pct_from_nth_error i : forall l prev x y,
  nth_error (prev :: l) i = Some x ->
  nth_error (prev :: l) (S i) = Some y ->
  nth_error (pct_from prev l) i = Some (fsub (fdiv y x) 1).
Proof.
  induction i as [|i IH]; intros l prev x y Hx Hy.
  - destruct l as [|a l]; [discriminate|]. simpl in *.
    inversion Hx; inversion Hy; subst. reflexivity.
  - destruct l as [|a l]; [discriminate|]. simpl.
    apply IH; assumption.
Qed.

(** Every place after the first holds [cur / prev - 1]. *)
Lemma pct_change_nth_error l i x y :
  nth_error l i = Some x -> nth_error l (S i) = Some y ->
  nth_error (pct_change l) (S i) = Some (fsub (fdiv y x) 1).
Proof.
  destruct l as [|prev l]; [destruct i; discriminate|].
  intros Hx Hy. simpl. now apply pct_from_nth_error.
Qed.

Lemma growth_rates_nth_error ms i m' :
  nth_error (growth_rates ms) i = Some m' ->
  exists m rg cg,
    nth_error ms i = Some m
    /\ nth_error (pct_change (map Monthly.Total_Revenue ms)) i = Some rg
    /\ nth_error
         (pct_change (map (fun r => nat_to_Q (Monthly.Unique_Customers r)) ms)) i
       = Some cg
    /\ m' = Monthly.set_growth m (times100 rg) (times100 cg).
Proof.
  unfold growth_rates.
  generalize (pct_change (map Monthly.Total_Revenue ms)) as rgs.
  generalize (pct_change (map (fun r => nat_to_Q (Monthly.Unique_Customers r)) ms))
    as cgs.
  intros cgs rgs. revert ms rgs cgs.
  induction i as [|i IH]; intros [|m ms] [|rg rgs] [|cg cgs] H;
    simpl in H; try discriminate.
  - inversion H; subst. exists m, rg, cg. simpl. auto.
  - apply IH in H. exact H.
Qed.

Lemma growth_rates_keep {B : Type} (f : Monthly.row -> B) ms :
  (forall m rg cg, f (Monthly.set_growth m rg cg) = f m) ->
  map f (growth_rates ms) = map f ms.
Proof.
  intro Hf. unfold growth_rates.
  pose proof (pct_change_length (map Monthly.Total_Revenue ms)) as Hr.
  pose proof (pct_change_length
                (map (fun r => nat_to_Q (Monthly.Unique_Customers r)) ms)) as Hc.
  rewrite length_map in Hr, Hc.
  revert Hr Hc.
  generalize (pct_change (map Monthly.Total_Revenue ms)) as rgs.
  generalize (pct_change (map (fun r => nat_to_Q (Monthly.Unique_Customers r)) ms))
    as cgs.
  intros cgs rgs. revert rgs cgs.
  induction ms as [|m ms IH]; intros [|rg rgs] [|cg cgs] Hr Hc;
    simpl in *; try discriminate; [reflexivity|].
  rewrite Hf. f_equal. apply IH; congruence.
Qed.

Lemma monthly_key_row g date : monthly_key (monthly_row g date) = fst g.
Proof. destruct g as [[y m] rows]. reflexivity. Qed.

Lemma aggregated_periods_keys df :
  map monthly_key (aggregated_periods df) = group_keys ym_eq_dec ym_leb ym_key df.
Proof.
  unfold aggregated_periods. rewrite map_map.
  rewrite <- groupby_keys. apply map_ext. intro g. apply monthly_key_row.
Qed.

Lemma group_keys_months df k :
  months_in_range df -> In k (group_keys ym_eq_dec ym_leb ym_key df) ->
  1 <= snd k <= 12.
Proof.
  intros Hm Hk. apply group_keys_In in Hk. destruct Hk as [r [Hr <-]].
  unfold months_in_range in Hm. rewrite Forall_forall in Hm. now apply Hm.
Qed.

Lemma dated_rows_ok df :
  months_in_range df ->
  mapM dated_monthly_row (groupby ym_eq_dec ym_leb ym_key df)
  = Ok (aggregated_periods df).
Proof.
  intro Hm. unfold aggregated_periods. apply mapM_pure.
  intros g Hg. unfold dated_monthly_row, to_datetime_ym.
  assert (Hk : 1 <= snd (fst g) <= 12).
  { apply (group_keys_months df); [exact Hm|].
    rewrite <- groupby_keys. now apply in_map. }
  destruct (Z.leb_spec 1 (snd (fst g))); [|lia].
  destruct (Z.leb_spec (snd (fst g)) 12); [|lia].
  reflexivity.
Qed.

Lemma monthly_date_row g date : Monthly.Date (monthly_row g date) = date.
Proof. destruct g as [[y m] rows]. reflexivity. Qed.

(** The dates of the aggregated frame increase strictly. *)
Lemma aggregated_periods_dates df :
  months_in_range df ->
  StronglySorted (fun a b => Monthly.Date a < Monthly.Date b) (aggregated_periods df).
Proof.
  intro Hm. unfold aggregated_periods.
  apply (StronglySorted_map (fun a b => ym_lt (fst a) (fst b))).
  - intros a b Ha Hb Hlt. rewrite !monthly_date_row.
    assert (Hka : 1 <= snd (fst a) <= 12).
    { apply (group_keys_months df); [exact Hm|].
      rewrite <- groupby_keys. now apply in_map. }
    assert (Hkb : 1 <= snd (fst b) <= 12).
    { apply (group_keys_months df); [exact Hm|].
      rewrite <- groupby_keys. now apply in_map. }
    pose proof (days_from_civil_mono (fst (fst a)) (snd (fst a))
                  (fst (fst b)) (snd (fst b)) Hka Hkb Hlt) as Hmono.
    unfold seconds_per_day. lia.
  - apply (StronglySorted_of_map ym_lt fst).
    rewrite groupby_keys. apply group_keys_ym_strict.
Qed.

(** The aggregated frame is already in date order, so sorting it by [Date]
    leaves it as it is. *)
Lemma sort_values_Date_aggregated df :
  months_in_range df ->
  sort_values_Date (aggregated_periods df) = aggregated_periods df.
Proof.
  intro Hm. unfold sort_values_Date. apply sort_sorted_id.
  apply StronglySorted_Sorted.
  pose proof (aggregated_periods_dates df Hm) as Hs.
  apply (StronglySorted_map (fun a b => Monthly.Date a < Monthly.Date b)
           (fun a b => (Monthly.Date a <=? Monthly.Date b) = true) (fun x => x)) in Hs.
  - now rewrite map_id in Hs.
  - intros a b _ _ H. apply Z.leb_le. lia.
Qed.

Lemma aggregated_periods_nonempty df : df <> [] -> aggregated_periods df <> [].
Proof.
  intros Hne H. apply (groupby_nonempty ym_eq_dec ym_leb ym_key) in Hne.
  unfold aggregated_periods in H. apply map_eq_nil in H. contradiction.
Qed.

Lemma growth_rates_length ms : List.length (growth_rates ms) = List.length ms.
Proof.
  rewrite <- (length_map (fun _ => tt) (growth_rates ms)).
  rewrite (growth_rates_keep (fun _ => tt)) by reflexivity.
  apply length_map.
Qed.

(** On a non-empty frame whose months are calendar months the function
    returns, and what it returns is the aggregated frame with its growth
    columns filled. *)
Lemma analyze_sales_trends_returns df :
  df <> [] -> months_in_range df ->
  analyze_sales_trends df = Ok (growth_rates (aggregated_periods df)).
Proof.
  intros Hne Hm. unfold analyze_sales_trends.
  rewrite (dated_rows_ok df Hm). cbn [bind].
  rewrite (sort_values_Date_aggregated df Hm).
  pose proof (aggregated_periods_nonempty df Hne) as Hagg.
  pose proof (growth_rates_length (aggregated_periods df)) as Hlen.
  destruct (growth_rates (aggregated_periods df)) as [|m ms] eqn:E.
  - destruct (aggregated_periods df); [contradiction|discriminate].
  - reflexivity.
Qed.


Lemma aggregated_revenue df m :
  In m (aggregated_periods df) ->
  Monthly.Total_Revenue m = round2 (period_revenue df (monthly_key m))
  /\ (1 <= Monthly.Unique_Customers m)%nat.
Proof.
  unfold aggregated_periods. intro H. apply in_map_iff in H.
  destruct H as [[[y mo] rows] [<- Hg]].
  apply groupby_In in Hg. destruct Hg as [-> [r [Hr _]]].
  split; [reflexivity|].
  cbn. apply nunique_pos. intro E. apply map_eq_nil in E.
  rewrite E in Hr. destruct Hr.
Qed.

Lemma fdiv_nonzero x y : ~ (y == 0)%Q -> fdiv x y = Fin (x / y).
Proof.
  intro H. unfold fdiv. destruct (Qeq_bool y 0) eqn:E; [|reflexivity].
  apply Qeq_bool_iff in E. contradiction.
Qed.

Lemma fdiv_zero x y :
  (y == 0)%Q ->
  fdiv x y = if Qltb 0 x then PInf else if Qltb x 0 then NInf else NaN.
Proof.
  intro H. unfold fdiv. apply Qeq_bool_iff in H. now rewrite H.
Qed.

Lemma nat_to_Q_nonzero n : (1 <= n)%nat -> ~ (nat_to_Q n == 0)%Q.
Proof.
  intros Hn H. unfold nat_to_Q, Qeq in H. simpl in H. lia.
Qed.

(** Two neighbouring rows of the returned frame, read back in the frame
    before the growth columns. *)
Lemma growth_rates_neighbours ms i prev cur :
  nth_error (growth_rates ms) i = Some prev ->
  nth_error (growth_rates ms) (S i) = Some cur ->
  exists p c,
    In p ms /\ In c ms
    /\ Monthly.Total_Revenue prev = Monthly.Total_Revenue p
    /\ Monthly.Total_Revenue cur = Monthly.Total_Revenue c
    /\ Monthly.Unique_Customers prev = Monthly.Unique_Customers p
    /\ Monthly.Unique_Customers cur = Monthly.Unique_Customers c
    /\ Monthly.Revenue_Growth cur =
         times100 (fsub (fdiv (Monthly.Total_Revenue c) (Monthly.Total_Revenue p)) 1)
    /\ Monthly.Customer_Growth cur =
         times100 (fsub (fdiv (nat_to_Q (Monthly.Unique_Customers c))
                              (nat_to_Q (Monthly.Unique_Customers p))) 1).
Proof.
  intros Hp Hc.
  apply growth_rates_nth_error in Hp. destruct Hp as [p [rg0 [cg0 [Hp [_ [_ Ep]]]]]].
  apply growth_rates_nth_error in Hc. destruct Hc as [c [rg [cg [Hc [Hrg [Hcg Ec]]]]]].
  exists p, c.
  rewrite (pct_change_nth_error _ i (Monthly.Total_Revenue p) (Monthly.Total_Revenue c))
    in Hrg by (rewrite nth_error_map; rewrite ?Hp, ?Hc; reflexivity).
  rewrite (pct_change_nth_error _ i (nat_to_Q (Monthly.Unique_Customers p))
             (nat_to_Q (Monthly.Unique_Customers c)))
    in Hcg by (rewrite nth_error_map; rewrite ?Hp, ?Hc; reflexivity).
  inversion Hrg; inversion Hcg; subst.
  repeat split; try reflexivity; eapply nth_error_In; eassumption.
Qed.

(** C3 (as the code has it). On a non-empty frame with calendar months the
    function returns one row per period, in strictly increasing (year, month)
    order and strictly increasing date, without a repeated key; the first
    row's two growth fields are NaN; each row's revenue is the period's
    revenue rounded to two decimals; and each later row's revenue growth is
    (rev[i] - rev[i-1]) / rev[i-1] * 100 over those rounded revenues,
    whenever rev[i-1] is not zero. *)
Theorem period_summaries_sorted_growth (df : list Row) :
  df <> [] -> months_in_range df ->
  exists ms,
    analyze_sales_trends df = Ok ms
    /\ StronglySorted ym_lt (map monthly_key ms)
    /\ StronglySorted (fun a b => Monthly.Date a < Monthly.Date b) ms
    /\ NoDup (map monthly_key ms)
    /\ (exists m0 rest, ms = m0 :: rest
          /\ Monthly.Revenue_Growth m0 = NaN /\ Monthly.Customer_Growth m0 = NaN)
    /\ (forall m, In m ms ->
          Monthly.Total_Revenue m = round2 (period_revenue df (monthly_key m)))
    /\ (forall i prev cur,
          nth_error ms i = Some prev -> nth_error ms (S i) = Some cur ->
          ~ (Monthly.Total_Revenue prev == 0)%Q ->
          exists g, Monthly.Revenue_Growth cur = Fin g
                    /\ (g == growth_percent (Monthly.Total_Revenue prev)
                                            (Monthly.Total_Revenue cur))%Q).
Proof.
  intros Hne Hm. exists (growth_rates (aggregated_periods df)).
  assert (Hkeys : map monthly_key (growth_rates (aggregated_periods df))
                  = group_keys ym_eq_dec ym_leb ym_key df).
  { rewrite growth_rates_keep by reflexivity. apply aggregated_periods_keys. }
  split; [now apply analyze_sales_trends_returns|].
  split; [rewrite Hkeys; apply group_keys_ym_strict|].
  split.
  { pose proof (aggregated_periods_dates df Hm) as Hs.
    apply (StronglySorted_map _ Z.lt Monthly.Date) in Hs; [|auto].
    rewrite <- (growth_rates_keep Monthly.Date) in Hs by reflexivity.
    now apply StronglySorted_of_map in Hs. }
  split; [rewrite Hkeys; apply group_keys_NoDup|].
  split; [|split].
  - pose proof (aggregated_periods_nonempty df Hne) as Hagg.
    destruct (aggregated_periods df) as [|a l]; [contradiction|].
    eexists _, _. split; [reflexivity|]. split; reflexivity.
  - intros m Hin. apply In_nth_error in Hin. destruct Hin as [i Hi].
    apply growth_rates_nth_error in Hi.
    destruct Hi as [a [rg [cg [Ha [_ [_ ->]]]]]].
    apply nth_error_In in Ha. apply aggregated_revenue in Ha.
    destruct Ha as [Ha _]. exact Ha.
  - intros i prev cur Hp Hc Hnz.
    destruct (growth_rates_neighbours _ _ _ _ Hp Hc)
      as [p [c [_ [_ [Ep [Ec [_ [_ [Hg _]]]]]]]]].
    rewrite Hg, Ep, Ec. rewrite Ep in Hnz.
    rewrite (fdiv_nonzero _ _ Hnz). cbn [fsub times100 fmul_pos].
    eexists. split; [reflexivity|].
    unfold growth_percent. field. exact Hnz.
Qed.

Lemma period_summaries_sorted_growth_witness :
  exists ms,
    analyze_sales_trends (cleaned sheet_fraction) = Ok ms
    /\ StronglySorted ym_lt (map monthly_key ms)
    /\ StronglySorted (fun a b => Monthly.Date a < Monthly.Date b) ms
    /\ NoDup (map monthly_key ms)
    /\ (exists m0 rest, ms = m0 :: rest
          /\ Monthly.Revenue_Growth m0 = NaN /\ Monthly.Customer_Growth m0 = NaN)
    /\ (forall m, In m ms ->
          Monthly.Total_Revenue m
          = round2 (period_revenue (cleaned sheet_fraction) (monthly_key m)))
    /\ (forall i prev cur,
          nth_error ms i = Some prev -> nth_error ms (S i) = Some cur ->
          ~ (Monthly.Total_Revenue prev == 0)%Q ->
          exists g, Monthly.Revenue_Growth cur = Fin g
                    /\ (g == growth_percent (Monthly.Total_Revenue prev)
                                            (Monthly.Total_Revenue cur))%Q).
Proof.
  apply (period_summaries_sorted_growth (cleaned sheet_fraction)).
  - vm_compute. discriminate.
  - vm_compute. repeat constructor; discriminate.
Defined.

(** C3 fails as stated: with a January revenue of 1.004 and a February
    revenue of 2 the reported February growth is exactly 100 (from the stored
    1.00 and 2.00), not the change against the unrounded 1.004. *)
Lemma growth_uses_rounded_revenue :
  exists jan feb g,
    analyze_sales_trends (cleaned sheet_fraction) = Ok [jan; feb]
    /\ (period_revenue (cleaned sheet_fraction) (monthly_key jan) == 1004 # 1000)%Q
    /\ (period_revenue (cleaned sheet_fraction) (monthly_key feb) == 2)%Q
    /\ Monthly.Revenue_Growth feb = Fin g
    /\ (g == 100)%Q
    /\ ~ (g == growth_percent
                 (period_revenue (cleaned sheet_fraction) (monthly_key jan))
                 (period_revenue (cleaned sheet_fraction) (monthly_key feb)))%Q
    /\ ~ (g == (Monthly.Total_Revenue feb - Monthly.Total_Revenue jan)
               / period_revenue (cleaned sheet_fraction) (monthly_key jan) * 100)%Q.
Proof.
  eexists _, _, _.
  split; [vm_compute; reflexivity|].
  split; [vm_compute; reflexivity|].
  split; [vm_compute; reflexivity|].
  split; [vm_compute; reflexivity|].
  split; [vm_compute; reflexivity|].
  split; intro H; vm_compute in H; discriminate.
Qed.

(** C4 (as the code has it). After a period whose stored revenue is zero the
    revenue growth is whatever float division by zero yields: plus infinity
    when the period's own revenue is positive, minus infinity when it is
    negative, and NaN only when it is zero too.  The call returns in every
    case.  A period's customer count is at least one, so the customer growth
    never meets a zero divisor and is always a finite number. *)
Theorem growth_after_zero_period (df : list Row) :
  df <> [] -> months_in_range df ->
  exists ms,
    analyze_sales_trends df = Ok ms
    /\ (forall i prev cur,
          nth_error ms i = Some prev -> nth_error ms (S i) = Some cur ->
          (Monthly.Total_Revenue prev == 0)%Q ->
          ((0 < Monthly.Total_Revenue cur)%Q -> Monthly.Revenue_Growth cur = PInf)
          /\ ((Monthly.Total_Revenue cur < 0)%Q -> Monthly.Revenue_Growth cur = NInf)
          /\ ((Monthly.Total_Revenue cur == 0)%Q -> Monthly.Revenue_Growth cur = NaN))
    /\ (forall m, In m ms -> (1 <= Monthly.Unique_Customers m)%nat)
    /\ (forall i prev cur,
          nth_error ms i = Some prev -> nth_error ms (S i) = Some cur ->
          exists g, Monthly.Customer_Growth cur = Fin g
                    /\ (g == growth_percent (nat_to_Q (Monthly.Unique_Customers prev))
                                            (nat_to_Q (Monthly.Unique_Customers cur)))%Q).
Proof.
  intros Hne Hm. exists (growth_rates (aggregated_periods df)).
  split; [now apply analyze_sales_trends_returns|].
  split; [|split].
  - intros i prev cur Hp Hc Hz.
    destruct (growth_rates_neighbours _ _ _ _ Hp Hc)
      as [p [c [_ [_ [Ep [Ec [_ [_ [Hg _]]]]]]]]].
    rewrite Hg, Ec. rewrite Ep in Hz. rewrite (fdiv_zero _ _ Hz).
    split; [|split]; intro H.
    + apply Qltb_lt in H. now rewrite H.
    + assert (H0 : Qltb 0 (Monthly.Total_Revenue c) = false).
      { apply Qltb_false_le. now apply Qlt_le_weak. }
      apply Qltb_lt in H. now rewrite H0, H.
    + assert (H0 : Qltb 0 (Monthly.Total_Revenue c) = false).
      { apply Qltb_false_le. rewrite H. apply Qle_refl. }
      assert (H1 : Qltb (Monthly.Total_Revenue c) 0 = false).
      { apply Qltb_false_le. rewrite H. apply Qle_refl. }
      now rewrite H0, H1.
  - intros m Hin. apply In_nth_error in Hin. destruct Hin as [i Hi].
    apply growth_rates_nth_error in Hi.
    destruct Hi as [a [rg [cg [Ha [_ [_ ->]]]]]].
    apply nth_error_In in Ha. apply aggregated_revenue in Ha.
    destruct Ha as [_ Ha]. exact Ha.
  - intros i prev cur Hp Hc.
    destruct (growth_rates_neighbours _ _ _ _ Hp Hc)
      as [p [c [Hinp [_ [_ [_ [Up [Uc [_ Hg]]]]]]]]].
    rewrite Hg, Up, Uc.
    assert (Hnz : ~ (nat_to_Q (Monthly.Unique_Customers p) == 0)%Q).
    { apply nat_to_Q_nonzero. apply aggregated_revenue in Hinp. tauto. }
    rewrite (fdiv_nonzero _ _ Hnz). cbn [fsub times100 fmul_pos].
    eexists. split; [reflexivity|].
    unfold growth_percent. field. exact Hnz.
Qed.

Lemma growth_after_zero_period_witness :
  exists ms,
    analyze_sales_trends (cleaned sheet_tiny) = Ok ms
    /\ (forall i prev cur,
          nth_error ms i = Some prev -> nth_error ms (S i) = Some cur ->
          (Monthly.Total_Revenue prev == 0)%Q ->
          ((0 < Monthly.Total_Revenue cur)%Q -> Monthly.Revenue_Growth cur = PInf)
          /\ ((Monthly.Total_Revenue cur < 0)%Q -> Monthly.Revenue_Growth cur = NInf)
          /\ ((Monthly.Total_Revenue cur == 0)%Q -> Monthly.Revenue_Growth cur = NaN))
    /\ (forall m, In m ms -> (1 <= Monthly.Unique_Customers m)%nat)
    /\ (forall i prev cur,
          nth_error ms i = Some prev -> nth_error ms (S i) = Some cur ->
          exists g, Monthly.Customer_Growth cur = Fin g
                    /\ (g == growth_percent (nat_to_Q (Monthly.Unique_Customers prev))
                                            (nat_to_Q (Monthly.Unique_Customers cur)))%Q).
Proof.
  apply (growth_after_zero_period (cleaned sheet_tiny)).
  - vm_compute. discriminate.
  - vm_compute. repeat constructor; discriminate.
Defined.

(** C4 fails as stated: a January with one sale of 0.004 has the stored
    revenue 0.00, and the February that follows it with revenue 1.00 gets the
    revenue growth plus infinity, which is not null. *)
Lemma growth_after_zero_is_infinite :
  exists jan feb,
    analyze_sales_trends (cleaned sheet_tiny) = Ok [jan; feb]
    /\ (Monthly.Total_Revenue jan == 0)%Q
    /\ Monthly.Revenue_Growth feb = PInf
    /\ is_null (Monthly.Revenue_Growth feb) = false.
Proof.
  eexists _, _.
  split; [vm_compute; reflexivity|].
  split; [vm_compute; reflexivity|].
  split; reflexivity.
Qed.

(* ================================================================== *)
(** ** nlargest *)

Section NlargestFacts.
Context {A : Type} (column : A -> Q).

Lemma geb_total a b : geb column a b = true \/ geb column b a = true.
Proof.
  unfold geb. destruct (Qlt_le_dec (column a) (column b)) as [H|H].
  - right. apply Qle_bool_iff. now apply Qlt_le_weak.
  - left. now apply Qle_bool_iff.
Qed.

Lemma sort_descending l : descending column (sort (geb column) l).
Proof.
  assert (Hs : StronglySorted (fun a b => geb column a b = true) (sort (geb column) l)).
  { apply Sorted_StronglySorted.
    - intros a b c Hab Hbc. unfold geb in *.
      apply Qle_bool_iff in Hab. apply Qle_bool_iff in Hbc.
      apply Qle_bool_iff. eapply Qle_trans; eassumption.
    - apply sort_sorted, geb_total. }
  unfold descending.
  apply (StronglySorted_map (fun a b => geb column a b = true)
           (fun a b => (column b <= column a)%Q) (fun x => x)) in Hs.
  - now rewrite map_id in Hs.
  - intros a b _ _ H. now apply Qle_bool_iff.
Qed.

Lemma descending_firstn n l : descending column l -> descending column (firstn n l).
Proof.
  unfold descending. intro H. revert n.
  induction H as [|a l Hs IH Hall]; intros [|n]; simpl; try constructor.
  - apply IH.
  - rewrite Forall_forall in *. intros x Hx. apply Hall.
    eapply firstn_In; eassumption.
Qed.

Lemma descending_split n l :
  descending column l ->
  forall a b, In a (firstn n l) -> In b (skipn n l) -> (column b <= column a)%Q.
Proof.
  unfold descending. intro H. revert n.
  induction H as [|x l Hs IH Hall]; intros [|n] a b Ha Hb; simpl in *;
    try contradiction.
  destruct Ha as [<-|Ha].
  - rewrite Forall_forall in Hall. apply Hall. eapply skipn_In; eassumption.
  - eapply IH; eassumption.
Qed.

(** What [nlargest] returns: [min n (len df)] rows in descending order of
    the column, no smaller than any row left out, and, among rows with the
    same value, the earliest of the table in the table's order. *)
Lemma nlargest_spec n df :
  List.length (nlargest n column df) = Nat.min (Z.to_nat n) (List.length df)
  /\ descending column (nlargest n column df)
  /\ (exists rest,
        Permutation (nlargest n column df ++ rest) df
        /\ forall a b, In a (nlargest n column df) -> In b rest ->
                       (column b <= column a)%Q)
  /\ (forall v, exists k,
        filter (tied column v) (nlargest n column df)
        = firstn k (filter (tied column v) df)).
Proof.
  unfold nlargest. split; [|split; [|split]].
  - rewrite length_firstn, sort_length. reflexivity.
  - apply descending_firstn, sort_descending.
  - exists (skipn (Z.to_nat n) (sort (geb column) df)). split.
    + rewrite firstn_skipn. apply sort_perm.
    + apply descending_split, sort_descending.
  - intro v.
    destruct (filter_firstn_prefix (tied column v) (Z.to_nat n) (sort (geb column) df))
      as [k Hk].
    exists k. rewrite Hk. f_equal. apply sort_filter_class.
    intros x y Hx Hy. unfold tied in *. unfold geb.
    apply Qeq_bool_iff in Hx. apply Qeq_bool_iff in Hy.
    apply Qle_bool_iff. rewrite Hx, Hy. apply Qle_refl.
Qed.
End NlargestFacts.

(* ================================================================== *)
(** ** EntityRanker *)

Lemma product_analysis_length df :
  List.length (product_analysis df)
  = List.length (distinct_keys ss_eq_dec product_key df).
Proof. unfold product_analysis. rewrite length_map. apply groupby_length. Qed.

(** C5. For every frame and every [n >= 0] the ranking has
    [min n (number of distinct (StockCode, Description) keys)] rows, in
    descending order of [Total_Revenue]; rows left out are no larger than
    rows kept; rows with equal revenue appear as in the grouped table, the
    earliest groups first (a stable order); and for [n = 0] it is empty. *)
Theorem top_products_ranked (df : list Row) (n : Z) :
  0 <= n ->
  let top := plot_top_products df n in
  Z.of_nat (List.length top)
  = Z.min n (Z.of_nat (List.length (distinct_keys ss_eq_dec product_key df)))
  /\ descending Product.Total_Revenue top
  /\ (exists rest,
        Permutation (top ++ rest) (product_analysis df)
        /\ forall a b, In a top -> In b rest ->
                       (Product.Total_Revenue b <= Product.Total_Revenue a)%Q)
  /\ (forall v, exists k,
        filter (tied Product.Total_Revenue v) top
        = firstn k (filter (tied Product.Total_Revenue v) (product_analysis df)))
  /\ (n = 0 -> top = []).
Proof.
  intros Hn top.
  destruct (nlargest_spec Product.Total_Revenue n (product_analysis df))
    as [Hlen [Hdesc [Hrest Hstable]]].
  change (nlargest n Product.Total_Revenue (product_analysis df))
    with top in Hlen, Hdesc, Hrest, Hstable.
  split; [|split; [|split; [|split]]]; try assumption.
  - rewrite Hlen, product_analysis_length. lia.
  - intro E. subst top. rewrite E. reflexivity.
Qed.

Lemma top_products_ranked_witness :
  let top := plot_top_products (cleaned sheet_tiny) 1 in
  Z.of_nat (List.length top)
  = Z.min 1 (Z.of_nat (List.length
                         (distinct_keys ss_eq_dec product_key (cleaned sheet_tiny))))
  /\ descending Product.Total_Revenue top
  /\ (exists rest,
        Permutation (top ++ rest) (product_analysis (cleaned sheet_tiny))
        /\ forall a b, In a top -> In b rest ->
                       (Product.Total_Revenue b <= Product.Total_Revenue a)%Q)
  /\ (forall v, exists k,
        filter (tied Product.Total_Revenue v) top
        = firstn k (filter (tied Product.Total_Revenue v)
                           (product_analysis (cleaned sheet_tiny))))
  /\ (1 = 0 -> top = []).
Proof.
  apply (top_products_ranked (cleaned sheet_tiny) 1). lia.
Defined.

(* ================================================================== *)
(** ** CustomerAnalyzer *)

Lemma customer_stats_length df :
  List.length (analyze_customer_behavior df)
  = List.length (distinct_keys string_dec CustomerID df).
Proof. unfold analyze_customer_behavior. rewrite length_map. apply groupby_length. Qed.

(** C6 (as the code has it). The number of top customers is the customer
    count divided by ten and rounded down: none below ten customers, at least
    one from ten customers on.  They are the largest spenders, in descending
    order of [Total_Spent], and the printed share is their combined spend
    divided by the spend of all customers, times 100. *)
Theorem top_decile_concentration (df : list Row) :
  let customer_stats := analyze_customer_behavior df in
  let top := top_customers customer_stats in
  List.length customer_stats = List.length (distinct_keys string_dec CustomerID df)
  /\ Z.of_nat (List.length top) = Z.of_nat (List.length customer_stats) / 10
  /\ ((List.length customer_stats < 10)%nat -> top = [])
  /\ ((10 <= List.length customer_stats)%nat -> (1 <= List.length top)%nat)
  /\ descending Customer.Total_Spent top
  /\ (exists rest,
        Permutation (top ++ rest) customer_stats
        /\ forall a b, In a top -> In b rest ->
                       (Customer.Total_Spent b <= Customer.Total_Spent a)%Q)
  /\ top10_contribution customer_stats
     = times100 (fdiv (Qsum (map Customer.Total_Spent top))
                      (Qsum (map Customer.Total_Spent customer_stats))).
Proof.
  intros customer_stats top.
  destruct (nlargest_spec Customer.Total_Spent
              (top_decile_count (List.length customer_stats)) customer_stats)
    as [Hlen [Hdesc [Hrest _]]].
  change (nlargest (top_decile_count (List.length customer_stats))
            Customer.Total_Spent customer_stats) with top in Hlen, Hdesc, Hrest.
  unfold top_decile_count in Hlen.
  assert (Hk : Z.of_nat (List.length top) = Z.of_nat (List.length customer_stats) / 10).
  { rewrite Hlen.
    pose proof (Z.div_pos (Z.of_nat (List.length customer_stats)) 10).
    pose proof (Z.div_le_upper_bound (Z.of_nat (List.length customer_stats)) 10
                  (Z.of_nat (List.length customer_stats))).
    lia. }
  split; [apply customer_stats_length|].
  split; [exact Hk|].
  split; [|split; [|split; [|split]]]; try assumption.
  - intro Hlt.
    assert (Z.of_nat (List.length customer_stats) / 10 = 0)
      by (apply Z.div_small; lia).
    destruct top; [reflexivity|simpl in Hk; lia].
  - intro Hge.
    pose proof (Z.div_le_lower_bound (Z.of_nat (List.length customer_stats)) 10 1).
    lia.
  - reflexivity.
Qed.

(** C6 fails as stated: with a single customer no top customer is selected
    and the printed share is 0, not that customer's 100. *)
Lemma single_customer_has_no_top :
  List.length (analyze_customer_behavior (cleaned sheet_single)) = 1%nat
  /\ top_customers (analyze_customer_behavior (cleaned sheet_single)) = []
  /\ exists share,
       top10_contribution (analyze_customer_behavior (cleaned sheet_single))
       = Fin share
       /\ (share == 0)%Q /\ ~ (share == 100)%Q.
Proof.
  split; [vm_compute; reflexivity|].
  split; [vm_compute; reflexivity|].
  eexists. split; [vm_compute; reflexivity|].
  split; [reflexivity|]. intro H. vm_compute in H. discriminate.
Qed.

Lemma fold_min_le l : forall x, fold_left Z.min l x <= x.
Proof.
  induction l as [|a l IH]; intro x; simpl; [lia|].
  specialize (IH (Z.min x a)). lia.
Qed.

Lemma fold_max_ge l : forall x, x <= fold_left Z.max l x.
Proof.
  induction l as [|a l IH]; intro x; simpl; [lia|].
  specialize (IH (Z.max x a)). lia.
Qed.

Lemma ts_min_max l :
  l <> [] -> exists lo hi, ts_min l = Some lo /\ ts_max l = Some hi /\ lo <= hi.
Proof.
  destruct l as [|x l]; [now intros []|]. intros _.
  eexists _, _. split; [reflexivity|]. split; [reflexivity|].
  pose proof (fold_min_le l x). pose proof (fold_max_ge l x). lia.
Qed.

Lemma timedelta_days_nonneg d : 0 <= d -> 0 <= timedelta_days d.
Proof. intro H. unfold timedelta_days, seconds_per_day. apply Z.div_pos; lia. Qed.

(* ================================================================== *)
(** ** ReportSynthesizer *)

Lemma Qsum_pos l : l <> [] -> Forall (fun x => (0 < x)%Q) l -> (0 < Qsum l)%Q.
Proof.
  intros Hne H. induction H as [|x l Hx Hl IH]; [now elim Hne|].
  simpl. destruct l as [|y l].
  - simpl. rewrite Qplus_0_r. exact Hx.
  - assert (Hs : (0 < Qsum (y :: l))%Q) by (apply IH; discriminate).
    rewrite <- (Qplus_0_r 0). apply Qplus_lt_le_compat; [exact Hx|].
    now apply Qlt_le_weak.
Qed.

Lemma peak_returns {K : Type} (default : K) (sales : list (K * Q)) :
  sales <> [] -> exists p, peak default sales = Ok p.
Proof.
  intro Hne. destruct sales as [|s sales]; [now elim Hne|].
  unfold peak. simpl. eexists. reflexivity.
Qed.

Lemma sales_by_nonempty {K : Type} (K_eq_dec : forall a b : K, {a = b} + {a <> b})
    (K_leb : K -> K -> bool) (key : Row -> K) df :
  df <> [] -> sales_by K_eq_dec K_leb key df <> [].
Proof.
  intros Hne H. unfold sales_by in H. apply map_eq_nil in H.
  revert H. now apply groupby_nonempty.
Qed.

(** On a non-empty frame the report is completed; its span and its average
    daily revenue are those of the frame's first and last timestamps. *)
Lemma report_returns (df : list Row) :
  df <> [] ->
  exists report,
    generate_comprehensive_report df = Ok report
    /\ date_range report
       = span_days (ts_min (map InvoiceDate df)) (ts_max (map InvoiceDate df))
    /\ avg_daily_revenue report
       = fdiv_opt (Qsum (map TotalAmount df)) (date_range report).
Proof.
  intro Hne. unfold generate_comprehensive_report.
  destruct (peak_returns 0
              (sales_by Z.eq_dec Z.leb (fun r => days_of (InvoiceDate r)) df)
              (sales_by_nonempty _ _ _ df Hne)) as [daily ->].
  destruct (peak_returns 0 (sales_by Z.eq_dec Z.leb Hour df)
              (sales_by_nonempty _ _ _ df Hne)) as [hourly ->].
  destruct (peak_returns EmptyString (sales_by string_dec String.leb DayOfWeek df)
              (sales_by_nonempty _ _ _ df Hne)) as [dow ->].
  cbn [bind]. eexists. split; [reflexivity|]. split; reflexivity.
Qed.

(** C10 (as the code has it). For a non-empty frame of positive totals whose
    first and last timestamps are less than a day apart, the span is 0 days
    and the average daily revenue is the total divided by that 0: with float
    operands the quotient is plus infinity, nothing is raised, and the report
    is completed. *)
Theorem single_day_report (df : list Row) (first last : Z) :
  df <> [] ->
  Forall (fun r => (0 < TotalAmount r)%Q) df ->
  ts_min (map InvoiceDate df) = Some first ->
  ts_max (map InvoiceDate df) = Some last ->
  last - first < 86400 ->
  exists report,
    generate_comprehensive_report df = Ok report
    /\ date_range report = Some 0
    /\ avg_daily_revenue report = PInf.
Proof.
  intros Hne Hpos Hmin Hmax Hspan.
  destruct (report_returns df Hne) as [report [Hret [Hrange Havg]]].
  exists report. split; [exact Hret|].
  assert (Hz : date_range report = Some 0).
  { rewrite Hrange, Hmin, Hmax. cbn [span_days].
    assert (Hne' : map InvoiceDate df <> []).
    { intro E. apply map_eq_nil in E. contradiction. }
    destruct (ts_min_max _ Hne') as [lo [hi [Hlo [Hhi Hle]]]].
    rewrite Hmin in Hlo. rewrite Hmax in Hhi.
    inversion Hlo; inversion Hhi; subst lo hi.
    unfold timedelta_days, seconds_per_day. f_equal. apply Z.div_small. lia. }
  split; [exact Hz|].
  rewrite Havg, Hz. cbn [fdiv_opt]. unfold fdiv.
  assert (Htot : (0 < Qsum (map TotalAmount df))%Q).
  { apply Qsum_pos.
    - intro E. apply map_eq_nil in E. contradiction.
    - rewrite Forall_forall in *. intros x Hx. apply in_map_iff in Hx.
      destruct Hx as [r [<- Hr]]. now apply Hpos. }
  apply Qltb_lt in Htot. rewrite Htot. reflexivity.
Qed.

Lemma single_day_report_witness :
  exists report,
    generate_comprehensive_report (cleaned sheet_single) = Ok report
    /\ date_range report = Some 0
    /\ avg_daily_revenue report = PInf.
Proof.
  apply (single_day_report (cleaned sheet_single) (midnight 2021 1 5) (midnight 2021 1 5)).
  - vm_compute. discriminate.
  - vm_compute. constructor; [reflexivity|constructor].
  - vm_compute. reflexivity.
  - vm_compute. reflexivity.
  - vm_compute. reflexivity.
Defined.

(** C10 fails as stated: on a frame with a single sale the report is
    completed with an infinite average daily revenue; no error is raised and
    [main] returns its results. *)
Lemma single_sale_raises_nothing :
  (exists report,
     generate_comprehensive_report (cleaned sheet_single) = Ok report
     /\ date_range report = Some 0
     /\ avg_daily_revenue report = PInf)
  /\ (forall e, generate_comprehensive_report (cleaned sheet_single) <> Err e)
  /\ handler_output (main (Sheet sheet_single)) = None
  /\ returned (main (Sheet sheet_single)) <> None.
Proof.
  split; [eexists; split; [vm_compute; reflexivity|split; reflexivity]|].
  split; [intros e H; vm_compute in H; discriminate|].
  split; [vm_compute; reflexivity|].
  intro H. vm_compute in H. discriminate.
Qed.

(* ================================================================== *)
(** ** main *)



(** C9 (as the code has it). Whatever a stage raises, [main] catches it,
    prints one line made of a fixed prefix and the exception's own message,
    and returns [None]. *)
Theorem errors_become_none (src : excel_source) (e : exn) :
  main_body src = Err e ->
  returned (main src) = None
  /\ handler_output (main src)
     = Some ("Error during analysis: " ++ str_exn e)%string.
Proof.
  intro H. unfold main. rewrite H. split; reflexivity.
Qed.

Lemma errors_become_none_witness :
  returned (main (Sheet [])) = None
  /\ handler_output (main (Sheet []))
     = Some ("Error during analysis: " ++ str_exn ZeroDivisionError)%string.
Proof.
  apply (errors_become_none (Sheet []) ZeroDivisionError).
  vm_compute. reflexivity.
Defined.

(** C9 fails as stated: an unreadable source, a sheet without rows and a
    sheet whose rows are all dropped fail in three different places with
    three different exceptions, and the caller gets the same [None] each
    time; the printed line for the empty sheet names neither a stage nor a
    count. *)
Lemma errors_are_undifferentiated :
  main_body (Unreadable "No such file") = Err (FileNotFoundError "No such file")
  /\ main_body (Sheet []) = Err ZeroDivisionError
  /\ main_body (Sheet sheet_anonymous)
     = Err (ValueError "attempt to get argmax of an empty sequence")
  /\ returned (main (Unreadable "No such file")) = None
  /\ returned (main (Sheet [])) = None
  /\ returned (main (Sheet sheet_anonymous)) = None
  /\ handler_output (main (Sheet []))
     = Some "Error during analysis: division by zero"%string.
Proof.
  repeat split; vm_compute; reflexivity.
Qed.

(* ================================================================== *)
(** ** Quantiles *)

Lemma quantile_interpolate q values :
  quantile q values =
  match sort Qle_bool values with
  | [] => None
  | (a0 :: _) as s => Some (interpolate s a0 (q * last_position s))
  end.
Proof. reflexivity. Qed.

Lemma Qle_bool_total a b : Qle_bool a b = true \/ Qle_bool b a = true.
Proof.
  destruct (Qlt_le_dec a b) as [H|H].
  - left. apply Qle_bool_iff. now apply Qlt_le_weak.
  - right. now apply Qle_bool_iff.
Qed.

Lemma sort_Qle_sorted l : StronglySorted Qle (sort Qle_bool l).
Proof.
  assert (Hs : StronglySorted (fun a b => Qle_bool a b = true) (sort Qle_bool l)).
  { apply Sorted_StronglySorted.
    - intros a b c Hab Hbc. apply Qle_bool_iff in Hab. apply Qle_bool_iff in Hbc.
      apply Qle_bool_iff. eapply Qle_trans; eassumption.
    - apply sort_sorted, Qle_bool_total. }
  apply (StronglySorted_map (fun a b => Qle_bool a b = true) Qle (fun x => x)) in Hs.
  - now rewrite map_id in Hs.
  - intros a b _ _ H. now apply Qle_bool_iff.
Qed.

(** In a sorted series a later place holds no smaller value. *)
Lemma sorted_nth_le s d : StronglySorted Qle s ->
  forall i j, (i <= j)%nat -> (j < List.length s)%nat ->
  (nth i s d <= nth j s d)%Q.
Proof.
  induction 1 as [|x s Hs IH Hall]; intros i j Hij Hj; simpl in Hj; [lia|].
  destruct i as [|i], j as [|j]; simpl; try lia.
  - apply Qle_refl.
  - rewrite Forall_forall in Hall. apply Hall. apply nth_In. lia.
  - apply IH; lia.
Qed.

Section Interpolation.
Context (s : list Q) (d : Q).
Hypothesis s_sorted : StronglySorted Qle s.

(** The floor of a position inside the series is a place of the series. *)
Lemma floor_in_range pos :
  (0 <= pos)%Q -> (pos <= last_position s)%Q ->
  0 <= Qfloor pos <= Z.of_nat (List.length s) - 1.
Proof.
  intros H0 H1. split.
  - change 0 with (Qfloor 0). now apply Qfloor_resp_le.
  - rewrite <- (Qfloor_Z (Z.of_nat (List.length s) - 1)). now apply Qfloor_resp_le.
Qed.

Lemma fraction_range pos : (0 <= pos - inject_Z (Qfloor pos))%Q
                           /\ (pos - inject_Z (Qfloor pos) < 1)%Q.
Proof.
  pose proof (Qfloor_le pos). pose proof (Qlt_floor pos) as Hlt.
  rewrite inject_Z_plus in Hlt. change (inject_Z 1) with 1%Q in Hlt.
  split; lra.
Qed.

(** The two entries around a position are in order. *)
Lemma neighbours_ordered pos :
  (0 <= pos)%Q -> (pos <= last_position s)%Q ->
  (nth (Z.to_nat (Qfloor pos)) s d
   <= nth (Z.to_nat (Qfloor pos) + 1) s (nth (Z.to_nat (Qfloor pos)) s d))%Q.
Proof.
  intros H0 H1. pose proof (floor_in_range pos H0 H1) as Hr.
  destruct (Nat.lt_ge_cases (Z.to_nat (Qfloor pos) + 1) (List.length s)) as [Hlt|Hge].
  - rewrite (nth_indep s _ d Hlt). apply sorted_nth_le; [exact s_sorted|lia|exact Hlt].
  - rewrite (nth_overflow s _ Hge). apply Qle_refl.
Qed.

(** An interpolated value lies between its two neighbours. *)
Lemma interpolate_between pos :
  (0 <= pos)%Q -> (pos <= last_position s)%Q ->
  (nth (Z.to_nat (Qfloor pos)) s d <= interpolate s d pos)%Q
  /\ (interpolate s d pos
      <= nth (Z.to_nat (Qfloor pos) + 1) s (nth (Z.to_nat (Qfloor pos)) s d))%Q.
Proof.
  intros H0 H1. unfold interpolate. cbn zeta.
  pose proof (neighbours_ordered pos H0 H1) as Hab.
  destruct (fraction_range pos) as [Hf0 Hf1].
  set (a := nth (Z.to_nat (Qfloor pos)) s d) in *.
  set (b := nth (Z.to_nat (Qfloor pos) + 1) s a) in *.
  set (f := (pos - inject_Z (Qfloor pos))%Q) in *.
  split; nra.
Qed.

(** Interpolation is monotone in the position. *)
Lemma interpolate_mono p1 p2 :
  (0 <= p1)%Q -> (p1 <= p2)%Q -> (p2 <= last_position s)%Q ->
  (interpolate s d p1 <= interpolate s d p2)%Q.
Proof.
  intros H0 H12 H2.
  assert (H1 : (p1 <= last_position s)%Q) by lra.
  assert (H0' : (0 <= p2)%Q) by lra.
  pose proof (Qfloor_resp_le _ _ H12) as Hfl.
  pose proof (floor_in_range p1 H0 H1) as Hr1.
  pose proof (floor_in_range p2 H0' H2) as Hr2.
  destruct (Z.eq_dec (Qfloor p1) (Qfloor p2)) as [E|N].
  - unfold interpolate. cbn zeta. rewrite <- E.
    pose proof (neighbours_ordered p1 H0 H1) as Hab.
    set (a := nth (Z.to_nat (Qfloor p1)) s d) in *.
    set (b := nth (Z.to_nat (Qfloor p1) + 1) s a) in *.
    nra.
  - destruct (interpolate_between p1 H0 H1) as [_ Hb1].
    destruct (interpolate_between p2 H0' H2) as [Ha2 _].
    assert (Hlt : (Z.to_nat (Qfloor p1) + 1 < List.length s)%nat) by lia.
    rewrite (nth_indep s _ d Hlt) in Hb1.
    assert (Hmid : (nth (Z.to_nat (Qfloor p1) + 1) s d
                    <= nth (Z.to_nat (Qfloor p2)) s d)%Q)
      by (apply sorted_nth_le; [exact s_sorted|lia|lia]).
    lra.
Qed.
End Interpolation.

Lemma last_position_nonneg (s : list Q) : s <> [] -> (0 <= last_position s)%Q.
Proof.
  intro H. destruct s as [|a s]; [now elim H|].
  unfold last_position. change 0%Q with (inject_Z 0). rewrite <- Zle_Qle.
  simpl List.length. lia.
Qed.

(** The quartiles of a non-empty series: both exist, the first is not above
    the third, both lie between two entries of the series, and some entry of
    the series lies inside the fences [Q1 - 1.5 IQR] and [Q3 + 1.5 IQR]. *)
Lemma quartiles_spec (totals : list Q) :
  totals <> [] ->
  exists Q1 Q3,
    quantile (1 # 4) totals = Some Q1
    /\ quantile (3 # 4) totals = Some Q3
    /\ (Q1 <= Q3)%Q
    /\ (exists least most, In least totals /\ In most totals
                           /\ (least <= Q1)%Q /\ (Q3 <= most)%Q)
    /\ (exists x, In x totals
                  /\ (Q1 - (3 # 2) * (Q3 - Q1) <= x)%Q
                  /\ (x <= Q3 + (3 # 2) * (Q3 - Q1))%Q).
Proof.
  intro Hne. rewrite !quantile_interpolate.
  pose proof (sort_Qle_sorted totals) as Hs.
  assert (Hin : forall x, In x (sort Qle_bool totals) -> In x totals)
    by (intro x; apply sort_In).
  assert (Hsne : sort Qle_bool totals <> []).
  { intro E. apply (f_equal (@List.length Q)) in E. rewrite sort_length in E.
    destruct totals; [now elim Hne|discriminate]. }
  destruct (sort Qle_bool totals) as [|a0 s'] eqn:Es; [now elim Hsne|].
  set (s := a0 :: s') in *.
  pose proof (last_position_nonneg s Hsne) as HL.
  set (L := last_position s) in *.
  set (p1 := ((1 # 4) * L)%Q). set (p3 := ((3 # 4) * L)%Q).
  assert (H01 : (0 <= p1)%Q) by (subst p1; lra).
  assert (H13 : (p1 <= p3)%Q) by (subst p1 p3; lra).
  assert (H3L : (p3 <= L)%Q) by (subst p3; lra).
  assert (H1L : (p1 <= L)%Q) by lra.
  assert (H03 : (0 <= p3)%Q) by lra.
  exists (interpolate s a0 p1), (interpolate s a0 p3).
  split; [reflexivity|]. split; [reflexivity|].
  pose proof (interpolate_mono s a0 Hs p1 p3 H01 H13 H3L) as Hmono.
  destruct (interpolate_between s a0 Hs p1 H01 H1L) as [Ha1 Hb1].
  destruct (interpolate_between s a0 Hs p3 H03 H3L) as [Ha3 Hb3].
  pose proof (floor_in_range s p1 H01 H1L) as Hr1.
  pose proof (floor_in_range s p3 H03 H3L) as Hr3.
  fold L in Hr1, Hr3.
  assert (Hi1 : (Z.to_nat (Qfloor p1) < List.length s)%nat) by lia.
  assert (Hi3 : (Z.to_nat (Qfloor p3) < List.length s)%nat) by lia.
  split; [exact Hmono|]. split.
  - exists (nth (Z.to_nat (Qfloor p1)) s a0),
           (nth (Z.to_nat (Qfloor p3) + 1) s (nth (Z.to_nat (Qfloor p3)) s a0)).
    split; [apply Hin, nth_In, Hi1|]. split; [|split; assumption].
    apply Hin.
    destruct (Nat.lt_ge_cases (Z.to_nat (Qfloor p3) + 1) (List.length s)) as [Hlt|Hge].
    + now apply nth_In.
    + rewrite (nth_overflow s _ Hge). now apply nth_In.
  - exists (nth (Z.to_nat (Qfloor p3)) s a0).
    split; [apply Hin, nth_In, Hi3|]. split; [|lra].
    destruct (Z.eq_dec (Qfloor p1) (Qfloor p3)) as [E|N].
    + pose proof (neighbours_ordered s a0 Hs p1 H01 H1L) as Hab.
      unfold interpolate. cbn zeta. rewrite <- E.
      set (a := nth (Z.to_nat (Qfloor p1)) s a0) in *.
      set (b := nth (Z.to_nat (Qfloor p1) + 1) s a) in *.
      assert (Hlo : (0 <= inject_Z (Qfloor p1))%Q).
      { change 0%Q with (inject_Z 0). rewrite <- Zle_Qle. lia. }
      assert (Hd : (0 <= b - a)%Q) by lra.
      assert (Hf : (0 <= (3 # 4) * L - (p1 - inject_Z (Qfloor p1)))%Q)
        by (subst p1; lra).
      pose proof (Qmult_le_0_compat _ _ Hd Hf) as Hprod.
      subst p1 p3. lra.
    + pose proof (Qfloor_resp_le _ _ H13) as Hfl.
      assert (Hlt : (Z.to_nat (Qfloor p1) + 1 < List.length s)%nat) by lia.
      rewrite (nth_indep s _ a0 Hlt) in Hb1.
      assert (Hmid : (nth (Z.to_nat (Qfloor p1) + 1) s a0
                      <= nth (Z.to_nat (Qfloor p3)) s a0)%Q)
        by (apply sorted_nth_le; [exact Hs|lia|lia]).
      lra.
Qed.

(** Some row of a non-empty validity-filtered frame passes the outlier
    mask. *)
Lemma inlier_exists (df : list RawRecord) :
  valid_rows df <> [] ->
  exists r, In r (valid_rows df)
            /\ inlier_mask (iqr_bounds (map TotalAmount (valid_rows df))) r = true.
Proof.
  intro Hne.
  assert (Ht : map TotalAmount (valid_rows df) <> []).
  { intro E. apply map_eq_nil in E. contradiction. }
  destruct (quartiles_spec _ Ht) as [Q1 [Q3 [H1 [H3 [_ [_ [x [Hx [Hlo Hhi]]]]]]]]].
  apply in_map_iff in Hx. destruct Hx as [r [<- Hr]].
  exists r. split; [exact Hr|].
  unfold iqr_bounds. rewrite H1, H3. cbn [inlier_mask].
  apply andb_true_iff. split; now apply Qle_bool_iff.
Qed.

(* ================================================================== *)
(** ** DataCleaner: what is kept, what is counted *)

Lemma filter_filter {A : Type} (f g : A -> bool) (l : list A) :
  filter f (filter g l) = filter (fun x => g x && f x) l.
Proof.
  induction l as [|a l IH]; simpl; [reflexivity|].
  destruct (g a); simpl; [destruct (f a)|]; now rewrite IH.
Qed.

(** X1. The cleaned frame is one pass over the sheet: the derived image, in
    sheet order, of exactly the rows that have a customer id, are valid and
    have their total inside the fences. *)
Theorem cleaned_single_pass (df : list RawRecord) :
  cleaned df = map derive (filter (kept_by_cleaner df) df).
Proof.
  rewrite cleaned_eq. unfold valid_rows at 2. unfold dropna_CustomerID.
  rewrite filter_map_swap, filter_map_swap, !filter_filter.
  f_equal. apply filter_ext. intro r. unfold kept_by_cleaner.
  now rewrite andb_assoc.
Qed.



Lemma dt_hour_range ts : 0 <= dt_hour ts <= 23.
Proof.
  unfold dt_hour, seconds_per_day.
  pose proof (Z.mod_pos_bound ts 86400).
  Z.to_euclidean_division_equations. lia.
Qed.

Lemma dt_day_name_In ts : In (dt_day_name ts) day_names.
Proof.
  unfold dt_day_name. apply nth_In.
  pose proof (Z.mod_pos_bound (days_of ts + 3) 7). simpl. lia.
Qed.

(** X3. The time features of a cleaned row are those of its own timestamp: the
    month is a calendar month, the hour an hour of the day and the weekday
    one of the seven names. *)
Theorem cleaned_time_features (df : list RawRecord) (r : Row) :
  In r (cleaned df) ->
  Year r = dt_year (InvoiceDate r)
  /\ Month r = dt_month (InvoiceDate r)
  /\ Hour r = dt_hour (InvoiceDate r)
  /\ DayOfWeek r = dt_day_name (InvoiceDate r)
  /\ 1 <= Month r <= 12
  /\ 0 <= Hour r <= 23
  /\ In (DayOfWeek r) day_names.
Proof.
  intro H. apply cleaned_valid, valid_rows_derived in H.
  destruct H as [_ [r0 ->]]. cbn [derive Year Month Hour DayOfWeek InvoiceDate].
  repeat split; try reflexivity;
    try apply dt_month_range; try apply dt_hour_range.
  apply dt_day_name_In.
Qed.

Lemma cleaned_time_features_witness :
  Year row_A = dt_year (InvoiceDate row_A)
  /\ Month row_A = dt_month (InvoiceDate row_A)
  /\ Hour row_A = dt_hour (InvoiceDate row_A)
  /\ DayOfWeek row_A = dt_day_name (InvoiceDate row_A)
  /\ 1 <= Month row_A <= 12
  /\ 0 <= Hour row_A <= 23
  /\ In (DayOfWeek row_A) day_names.
Proof.
  apply (cleaned_time_features sheet_three row_A).
  vm_compute. left. reflexivity.
Defined.

(** X4. The fences of a non-empty validity-filtered frame are in order around
    the quartiles, lower <= Q1 <= Q3 <= upper, and the quartiles lie between
    two totals of the frame. *)
Theorem fences_bracket_quartiles (df : list RawRecord) :
  valid_rows df <> [] ->
  exists Q1 Q3 lower upper,
    quantile (1 # 4) (map TotalAmount (valid_rows df)) = Some Q1
    /\ quantile (3 # 4) (map TotalAmount (valid_rows df)) = Some Q3
    /\ iqr_bounds (map TotalAmount (valid_rows df)) = Some (lower, upper)
    /\ (lower <= Q1)%Q /\ (Q1 <= Q3)%Q /\ (Q3 <= upper)%Q
    /\ exists least most,
         In least (valid_rows df) /\ In most (valid_rows df)
         /\ (TotalAmount least <= Q1)%Q /\ (Q3 <= TotalAmount most)%Q.
Proof.
  intro Hne.
  assert (Ht : map TotalAmount (valid_rows df) <> []).
  { intro E. apply map_eq_nil in E. contradiction. }
  destruct (quartiles_spec _ Ht)
    as [Q1 [Q3 [H1 [H3 [H13 [[least [most [Hl [Hm [Hl1 Hm3]]]]] _]]]]]].
  exists Q1, Q3, (Q1 - (3 # 2) * (Q3 - Q1))%Q, (Q3 + (3 # 2) * (Q3 - Q1))%Q.
  split; [exact H1|]. split; [exact H3|].
  split; [unfold iqr_bounds; now rewrite H1, H3|].
  split; [lra|]. split; [exact H13|]. split; [lra|].
  apply in_map_iff in Hl. destruct Hl as [rl [<- Hrl]].
  apply in_map_iff in Hm. destruct Hm as [rm [<- Hrm]].
  exists rl, rm. repeat split; assumption.
Qed.

Lemma fences_bracket_quartiles_witness :
  exists Q1 Q3 lower upper,
    quantile (1 # 4) (map TotalAmount (valid_rows sheet_tight)) = Some Q1
    /\ quantile (3 # 4) (map TotalAmount (valid_rows sheet_tight)) = Some Q3
    /\ iqr_bounds (map TotalAmount (valid_rows sheet_tight)) = Some (lower, upper)
    /\ (lower <= Q1)%Q /\ (Q1 <= Q3)%Q /\ (Q3 <= upper)%Q
    /\ exists least most,
         In least (valid_rows sheet_tight) /\ In most (valid_rows sheet_tight)
         /\ (TotalAmount least <= Q1)%Q /\ (Q3 <= TotalAmount most)%Q.
Proof.
  apply (fences_bracket_quartiles sheet_tight).
  vm_compute. discriminate.
Defined.

Lemma cleaned_nil_valid_nil (df : list RawRecord) :
  cleaned df = [] -> valid_rows df = [].
Proof.
  intro H. destruct (valid_rows df) as [|r l] eqn:E; [reflexivity|].
  assert (Hne : valid_rows df <> []) by (rewrite E; discriminate).
  destruct (inlier_exists df Hne) as [x [Hx Hm]].
  assert (Hin : In x (cleaned df)).
  { rewrite cleaned_eq. apply filter_In. now split. }
  rewrite H in Hin. destruct Hin.
Qed.

Lemma valid_nil_cleaned_nil (df : list RawRecord) :
  valid_rows df = [] -> cleaned df = [].
Proof. intro H. rewrite cleaned_eq, H. reflexivity. Qed.

(** X5. The outlier filter never empties a frame: the cleaned frame is empty
    exactly when no row survived the validity filter. *)
Theorem cleaned_empty_iff (df : list RawRecord) :
  cleaned df = [] <-> valid_rows df = [].
Proof.
  split; [apply cleaned_nil_valid_nil | apply valid_nil_cleaned_nil].
Qed.





(** X6. A validity-filtered frame whose totals are all equal has no outliers:
    the outlier stage keeps every row. *)
Theorem equal_totals_lose_nothing (df : list RawRecord) :
  (forall r r', In r (valid_rows df) -> In r' (valid_rows df) ->
                (TotalAmount r == TotalAmount r')%Q) ->
  cleaned df = valid_rows df
  /\ removed_outliers (cleaning_statistics df) = 0%nat.
Proof.
  intro Heq.
  assert (Hc : cleaned df = valid_rows df).
  { rewrite cleaned_eq. apply filter_all. intros r Hr.
    assert (Hne : map TotalAmount (valid_rows df) <> []).
    { intro E. apply map_eq_nil in E. rewrite E in Hr. destruct Hr. }
    destruct (quartiles_spec _ Hne)
      as [Q1 [Q3 [H1 [H3 [H13 [[least [most [Hl [Hm [Hl1 Hm3]]]]] _]]]]]].
    apply in_map_iff in Hl. destruct Hl as [rl [<- Hrl]].
    apply in_map_iff in Hm. destruct Hm as [rm [<- Hrm]].
    pose proof (Heq r rl Hr Hrl) as El. pose proof (Heq r rm Hr Hrm) as Em.
    unfold iqr_bounds. rewrite H1, H3. cbn [inlier_mask].
    apply andb_true_iff. split; apply Qle_bool_iff; lra. }
  split; [exact Hc|].
  unfold cleaning_statistics, clean_stages. cbn [snd removed_outliers].
  fold (valid_rows df).
  change (filter (inlier_mask (iqr_bounds (map TotalAmount (valid_rows df))))
            (valid_rows df)) with (cleaned df).
  rewrite Hc. lia.
Qed.

Lemma equal_totals_lose_nothing_witness :
  cleaned sheet_equal = valid_rows sheet_equal
  /\ removed_outliers (cleaning_statistics sheet_equal) = 0%nat
  /\ List.length (valid_rows sheet_equal) = 3%nat.
Proof.
  split; [|split; [|vm_compute; reflexivity]];
    apply (equal_totals_lose_nothing sheet_equal);
    intros r r' Hr Hr'; vm_compute in Hr, Hr';
    destruct Hr as [<-|[<-|[<-|[]]]]; destruct Hr' as [<-|[<-|[<-|[]]]];
    vm_compute; reflexivity.
Defined.

(* ================================================================== *)
(** ** groupby splits a frame *)

Lemma filter_disjoint_perm {A : Type} (p q : A -> bool) (l : list A) :
  (forall x, In x l -> p x = true -> q x = true -> False) ->
  Permutation (filter (fun x => p x || q x) l) (filter p l ++ filter q l).
Proof.
  induction l as [|a l IH]; intro Hd; simpl; [constructor|].
  assert (IH' : Permutation (filter (fun x => p x || q x) l)
                            (filter p l ++ filter q l)).
  { apply IH. intros x Hx. apply Hd. now right. }
  destruct (p a) eqn:Pa, (q a) eqn:Qa; simpl.
  - elim (Hd a (or_introl eq_refl) Pa Qa).
  - now constructor.
  - rewrite IH'. apply Permutation_middle.
  - exact IH'.
Qed.

Section GroupBySplits.
Context {K : Type} (K_eq_dec : forall a b : K, {a = b} + {a <> b}).
Context (K_leb : K -> K -> bool) (key : Row -> K).

Lemma groups_of_keys_perm (ks : list K) (df : list Row) :
  NoDup ks ->
  Permutation (List.concat (map (fun k => group_rows K_eq_dec key k df) ks))
              (filter (key_among K_eq_dec key ks) df).
Proof.
  induction 1 as [|k ks Hnotin Hnd IH]; simpl.
  - unfold key_among. simpl. now rewrite filter_false.
  - rewrite IH. unfold group_rows.
    assert (E : filter (key_among K_eq_dec key (k :: ks)) df
                = filter (fun r => (if K_eq_dec (key r) k then true else false)
                                   || key_among K_eq_dec key ks r) df).
    { apply filter_ext. intro r. unfold key_among. simpl.
      destruct (K_eq_dec k (key r)) as [E|N], (K_eq_dec (key r) k) as [E'|N'];
        try congruence; try reflexivity.
      destruct (in_dec K_eq_dec (key r) ks); reflexivity. }
    rewrite E. symmetry. apply filter_disjoint_perm.
    intros r _ Hk Hin. unfold key_among in Hin.
    destruct (K_eq_dec (key r) k) as [Ek|]; [|discriminate].
    destruct (in_dec K_eq_dec (key r) ks) as [Hi|]; [|discriminate].
    apply Hnotin. now rewrite <- Ek.
Qed.

(** The groups, laid end to end, are the frame up to the order of rows:
    every row is in exactly one group. *)
Lemma groupby_partition (df : list Row) :
  Permutation (List.concat (map snd (groupby K_eq_dec K_leb key df))) df.
Proof.
  unfold groupby. rewrite map_map. cbn [snd].
  rewrite groups_of_keys_perm by apply group_keys_NoDup.
  rewrite filter_all; [reflexivity|].
  intros r Hr. unfold key_among.
  destruct (in_dec K_eq_dec (key r) (group_keys K_eq_dec K_leb key df)) as [|N];
    [reflexivity|].
  elim N. apply group_keys_In. now exists r.
Qed.
End GroupBySplits.

Lemma Zsum_app l1 l2 : Zsum (l1 ++ l2) = Zsum l1 + Zsum l2.
Proof. induction l1 as [|a l IH]; simpl; lia. Qed.

Lemma Zsum_perm l1 l2 : Permutation l1 l2 -> Zsum l1 = Zsum l2.
Proof. induction 1; simpl; lia. Qed.

Lemma Zsum_concat (ls : list (list Z)) : Zsum (List.concat ls) = Zsum (map Zsum ls).
Proof.
  induction ls as [|l ls IH]; simpl; [reflexivity|].
  now rewrite Zsum_app, IH.
Qed.

(** A whole-number column summed group by group is the column summed over
    the frame. *)
Lemma groupby_Zsum {K : Type} (K_eq_dec : forall a b : K, {a = b} + {a <> b})
    (K_leb : K -> K -> bool) (key : Row -> K) (column : Row -> Z) (df : list Row) :
  Zsum (map (fun g => Zsum (map column (snd g))) (groupby K_eq_dec K_leb key df))
  = Zsum (map column df).
Proof.
  rewrite <- (Zsum_perm _ _ (Permutation_map column
                               (groupby_partition K_eq_dec K_leb key df))).
  rewrite concat_map, Zsum_concat, !map_map. reflexivity.
Qed.

(** The sizes of the groups add up to the size of the frame. *)
Lemma groupby_sizes {K : Type} (K_eq_dec : forall a b : K, {a = b} + {a <> b})
    (K_leb : K -> K -> bool) (key : Row -> K) (df : list Row) :
  list_sum (map (fun g => List.length (snd g)) (groupby K_eq_dec K_leb key df))
  = List.length df.
Proof.
  rewrite <- (Permutation_length (groupby_partition K_eq_dec K_leb key df)).
  rewrite length_concat, map_map. reflexivity.
Qed.

Lemma nunique_le (l : list string) : (nunique l <= List.length l)%nat.
Proof.
  unfold nunique. induction l as [|x l IH]; simpl; [lia|].
  destruct (in_dec string_dec x l); simpl; lia.
Qed.

(* ================================================================== *)
(** ** TrendAnalyzer: when it returns, and what its rows add up to *)

Lemma mapM_Ok_In {A B : Type} (f : A -> result B) (l : list A) (ys : list B) :
  mapM f l = Ok ys -> forall x, In x l -> exists y, f x = Ok y.
Proof.
  revert ys. induction l as [|a l IH]; intros ys H x Hx; [destruct Hx|].
  simpl in H. destruct (f a) as [y|e] eqn:Ea; [|discriminate]. cbn [bind] in H.
  destruct (mapM f l) as [ys'|e] eqn:El; [|discriminate].
  destruct Hx as [<-|Hx]; [now exists y|]. now apply (IH ys').
Qed.

Lemma groupby_nil {K : Type} (K_eq_dec : forall a b : K, {a = b} + {a <> b})
    (K_leb : K -> K -> bool) (key : Row -> K) :
  groupby K_eq_dec K_leb key [] = [].
Proof. reflexivity. Qed.

(** If the function returns, the frame is not empty and its months are
    calendar months. *)
Lemma analyze_sales_trends_Ok_inv df ms :
  analyze_sales_trends df = Ok ms -> df <> [] /\ months_in_range df.
Proof.
  unfold analyze_sales_trends. intro H.
  destruct (mapM dated_monthly_row (groupby ym_eq_dec ym_leb ym_key df))
    as [agg|e] eqn:Em; [|discriminate].
  cbn [bind] in H. split.
  - intros ->. rewrite groupby_nil in Em. simpl in Em. inversion Em; subst agg.
    simpl in H. discriminate.
  - unfold months_in_range. apply Forall_forall. intros r Hr.
    assert (Hk : In (ym_key r) (group_keys ym_eq_dec ym_leb ym_key df))
      by (apply group_keys_In; now exists r).
    rewrite <- groupby_keys in Hk. apply in_map_iff in Hk.
    destruct Hk as [g [Eg Hg]].
    destruct (mapM_Ok_In _ _ _ Em g Hg) as [y Hy].
    unfold dated_monthly_row, to_datetime_ym in Hy. rewrite Eg in Hy.
    cbn [ym_key fst snd] in Hy.
    destruct (Z.leb_spec 1 (Month r)); [|discriminate].
    destruct (Z.leb_spec (Month r) 12); [|discriminate]. lia.
Qed.

Lemma analyze_sales_trends_Ok_eq df ms :
  analyze_sales_trends df = Ok ms -> ms = growth_rates (aggregated_periods df).
Proof.
  intro H. destruct (analyze_sales_trends_Ok_inv df ms H) as [Hne Hm].
  rewrite (analyze_sales_trends_returns df Hne Hm) in H. now inversion H.
Qed.

(** X8. On a frame whose years are timestamp years and whose months are
    calendar months, the function returns exactly when the frame is not
    empty; on the empty frame the "best month" lookup raises. *)
Theorem trend_analysis_returns_iff (df : list Row) :
  years_in_range df -> months_in_range df ->
  ((exists ms, analyze_sales_trends df = Ok ms) <-> df <> [])
  /\ (df = [] ->
      analyze_sales_trends df
      = Err (ValueError "attempt to get argmax of an empty sequence")).
Proof.
  intros _ Hm. split; [split|].
  - intros [ms H]. now apply (analyze_sales_trends_Ok_inv df ms).
  - intro Hne. eexists. now apply analyze_sales_trends_returns.
  - intros ->. reflexivity.
Qed.

Lemma trend_analysis_returns_iff_witness :
  (((exists ms, analyze_sales_trends (cleaned sheet_fraction) = Ok ms)
    <-> cleaned sheet_fraction <> [])
   /\ (cleaned sheet_fraction = [] ->
       analyze_sales_trends (cleaned sheet_fraction)
       = Err (ValueError "attempt to get argmax of an empty sequence")))
  /\ analyze_sales_trends []
     = Err (ValueError "attempt to get argmax of an empty sequence").
Proof.
  split.
  - apply (trend_analysis_returns_iff (cleaned sheet_fraction)).
    + vm_compute. repeat constructor; discriminate.
    + vm_compute. repeat constructor; discriminate.
  - apply (trend_analysis_returns_iff []);
      [constructor | constructor | reflexivity].
Defined.

Lemma aggregated_periods_In df m :
  In m (aggregated_periods df) ->
  exists k rows,
    In (k, rows) (groupby ym_eq_dec ym_leb ym_key df)
    /\ m = monthly_row (k, rows) (seconds_per_day * days_from_civil (fst k) (snd k) 1).
Proof.
  unfold aggregated_periods. intro H. apply in_map_iff in H.
  destruct H as [[k rows] [<- Hg]]. now exists k, rows.
Qed.

Lemma growth_rates_In ms m :
  In m (growth_rates ms) ->
  exists a rg cg, In a ms /\ m = Monthly.set_growth a rg cg.
Proof.
  intro H. apply In_nth_error in H. destruct H as [i Hi].
  apply growth_rates_nth_error in Hi.
  destruct Hi as [a [rg [cg [Ha [_ [_ ->]]]]]].
  exists a, (times100 rg), (times100 cg). split; [|reflexivity].
  eapply nth_error_In; eassumption.
Qed.

(** X9. The trend table splits the frame: one row per distinct (year, month),
    transaction counts that add up to the number of rows of the frame, and in
    every row at least one transaction, at least one customer and product,
    and no more distinct customers or products than transactions. *)
Theorem trend_rows_split_the_frame (df : list Row) (ms : list Monthly.row) :
  analyze_sales_trends df = Ok ms ->
  List.length ms = List.length (distinct_keys ym_eq_dec ym_key df)
  /\ list_sum (map Monthly.Total_Transactions ms) = List.length df
  /\ forall m, In m ms ->
       (1 <= Monthly.Total_Transactions m)%nat
       /\ (1 <= Monthly.Unique_Customers m <= Monthly.Total_Transactions m)%nat
       /\ (1 <= Monthly.Unique_Products m <= Monthly.Total_Transactions m)%nat.
Proof.
  intro H. apply analyze_sales_trends_Ok_eq in H. subst ms.
  split; [|split].
  - rewrite growth_rates_length. unfold aggregated_periods.
    rewrite length_map. apply groupby_length.
  - rewrite growth_rates_keep by reflexivity.
    unfold aggregated_periods. rewrite map_map.
    rewrite <- (groupby_sizes ym_eq_dec ym_leb ym_key df).
    f_equal. apply map_ext. intros [[y mo] rows]. reflexivity.
  - intros m Hm. apply growth_rates_In in Hm.
    destruct Hm as [a [rg [cg [Ha ->]]]].
    apply aggregated_periods_In in Ha. destruct Ha as [[y mo] [rows [Hg ->]]].
    apply groupby_In in Hg. destruct Hg as [_ [r [Hr _]]].
    cbn.
    assert (Hlen : (1 <= List.length rows)%nat)
      by (destruct rows; [destruct Hr|simpl; lia]).
    assert (Hc : map CustomerID rows <> [])
      by (intro E; apply map_eq_nil in E; subst rows; destruct Hr).
    assert (Hp : map StockCode rows <> [])
      by (intro E; apply map_eq_nil in E; subst rows; destruct Hr).
    pose proof (nunique_pos _ Hc). pose proof (nunique_pos _ Hp).
    pose proof (nunique_le (map CustomerID rows)) as Lc.
    pose proof (nunique_le (map StockCode rows)) as Lp.
    rewrite length_map in Lc, Lp. lia.
Qed.

Lemma trend_rows_split_the_frame_witness :
  List.length trends_fraction
  = List.length (distinct_keys ym_eq_dec ym_key (cleaned sheet_fraction))
  /\ list_sum (map Monthly.Total_Transactions trends_fraction)
     = List.length (cleaned sheet_fraction)
  /\ forall m, In m trends_fraction ->
       (1 <= Monthly.Total_Transactions m)%nat
       /\ (1 <= Monthly.Unique_Customers m <= Monthly.Total_Transactions m)%nat
       /\ (1 <= Monthly.Unique_Products m <= Monthly.Total_Transactions m)%nat.
Proof.
  apply (trend_rows_split_the_frame (cleaned sheet_fraction) trends_fraction).
  vm_compute. reflexivity.
Defined.

Lemma first_of_month_roundtrip y m :
  1 <= m <= 12 -> civil_from_days (days_from_civil y m 1) = (y, m, 1).
Proof.
  intro Hm. unfold days_from_civil. cbn zeta.
  set (y' := if m <=? 2 then y - 1 else y).
  set (era := y' / 400).
  set (yoe := y' - era * 400).
  assert (Hyoe : 0 <= yoe <= 399).
  { subst yoe era. pose proof (Z.mod_pos_bound y' 400).
    pose proof (Z.div_mod y' 400). lia. }
  set (mp := (m + 9) mod 12).
  assert (Hmp : 0 <= mp <= 11 /\ (m <= 2 -> mp = m + 9) /\ (2 < m -> mp = m - 3)).
  { subst mp. Z.to_euclidean_division_equations. lia. }
  set (doy := (153 * mp + 2) / 5 + 1 - 1).
  assert (Hdoy : 0 <= doy <= 337 /\ 5 * doy <= 153 * mp + 2 < 5 * doy + 5).
  { subst doy. Z.to_euclidean_division_equations. lia. }
  set (doe := yoe * 365 + yoe / 4 - yoe / 100 + doy).
  assert (Hdoe : 0 <= doe <= 146096).
  { subst doe. Z.to_euclidean_division_equations. lia. }
  unfold civil_from_days. cbn zeta.
  replace (era * 146097 + doe - 719468 + 719468) with (doe + era * 146097) by lia.
  rewrite Z.div_add by lia. rewrite (Z.div_small doe 146097) by lia.
  replace (doe + era * 146097 - (0 + era) * 146097) with doe by lia.
  assert (Hy : (doe - doe / 1460 + doe / 36524 - doe / 146096) / 365 = yoe).
  { subst doe. clearbody doy yoe. clear -Hyoe Hdoy.
    Z.to_euclidean_division_equations. lia. }
  rewrite Hy.
  replace (doe - (365 * yoe + yoe / 4 - yoe / 100)) with doy by (subst doe; lia).
  assert (Hmp' : (5 * doy + 2) / 153 = mp).
  { clearbody doy mp. clear -Hmp Hdoy. Z.to_euclidean_division_equations. lia. }
  rewrite Hmp'.
  assert (Hd : doy - (153 * mp + 2) / 5 + 1 = 1).
  { clearbody doy mp. clear -Hmp Hdoy. Z.to_euclidean_division_equations. lia. }
  rewrite Hd.
  destruct Hmp as [Hr [H1 H2]].
  subst y'. clearbody mp.
  destruct (Z.leb_spec m 2) as [H|H].
  - rewrite (H1 H). destruct (Z.ltb_spec (m + 9) 10); [lia|].
    replace (m + 9 - 9) with m by lia.
    destruct (Z.leb_spec m 2); [|lia]. f_equal. f_equal. subst yoe era.
    pose proof (Z.div_mod (y - 1) 400). lia.
  - rewrite (H2 H). destruct (Z.ltb_spec (m - 3) 10); [|lia].
    replace (m - 3 + 3) with m by lia.
    destruct (Z.leb_spec m 2); [lia|]. f_equal. f_equal. subst yoe era.
    pose proof (Z.div_mod y 400). lia.
Qed.

Lemma days_of_midnight d : days_of (seconds_per_day * d) = d.
Proof.
  unfold days_of, seconds_per_day. rewrite Z.mul_comm. apply Z.div_mul. lia.
Qed.

(** X10. Each row's [Date] is midnight of the first day of the row's own month:
    read back through the calendar it gives the row's [Year] and [Month],
    hour 0, and the row's [YearMonth] is the text of that year and month. *)
Theorem trend_dates_are_month_starts (df : list Row) (ms : list Monthly.row)
    (m : Monthly.row) :
  analyze_sales_trends df = Ok ms -> In m ms ->
  Monthly.Date m = midnight (Monthly.Year m) (Monthly.Month m) 1
  /\ dt_year (Monthly.Date m) = Monthly.Year m
  /\ dt_month (Monthly.Date m) = Monthly.Month m
  /\ dt_hour (Monthly.Date m) = 0
  /\ Monthly.YearMonth m = year_month_text (Monthly.Year m) (Monthly.Month m)
  /\ exists r, In r df /\ Year r = Monthly.Year m /\ Month r = Monthly.Month m.
Proof.
  intros H Hm.
  destruct (analyze_sales_trends_Ok_inv df ms H) as [_ Hrange].
  apply analyze_sales_trends_Ok_eq in H. subst ms.
  apply growth_rates_In in Hm. destruct Hm as [a [rg [cg [Ha ->]]]].
  apply aggregated_periods_In in Ha. destruct Ha as [[y mo] [rows [Hg ->]]].
  assert (Hk : 1 <= mo <= 12).
  { apply (group_keys_months df (y, mo) Hrange).
    rewrite <- groupby_keys. apply in_map_iff. now exists ((y, mo), rows). }
  apply groupby_In in Hg. destruct Hg as [_ [r [_ [Hr Hkey]]]].
  cbn [monthly_row Monthly.set_growth Monthly.Date Monthly.Year Monthly.Month
       Monthly.YearMonth fst snd].
  unfold dt_year, dt_month, dt_hour, midnight.
  rewrite days_of_midnight, (first_of_month_roundtrip y mo Hk). cbn [fst snd].
  split; [reflexivity|]. split; [reflexivity|]. split; [reflexivity|].
  split.
  - unfold seconds_per_day. rewrite Z.mul_comm, Z.mod_mul by lia. reflexivity.
  - split; [reflexivity|]. exists r. split; [exact Hr|].
    unfold ym_key in Hkey. inversion Hkey. split; reflexivity.
Qed.

Lemma trend_dates_are_month_starts_witness :
  Monthly.Date january_fraction
  = midnight (Monthly.Year january_fraction) (Monthly.Month january_fraction) 1
  /\ dt_year (Monthly.Date january_fraction) = Monthly.Year january_fraction
  /\ dt_month (Monthly.Date january_fraction) = Monthly.Month january_fraction
  /\ dt_hour (Monthly.Date january_fraction) = 0
  /\ Monthly.YearMonth january_fraction
     = year_month_text (Monthly.Year january_fraction) (Monthly.Month january_fraction)
  /\ exists r, In r (cleaned sheet_fraction)
               /\ Year r = Monthly.Year january_fraction
               /\ Month r = Monthly.Month january_fraction.
Proof.
  apply (trend_dates_are_month_starts (cleaned sheet_fraction) trends_fraction
           january_fraction).
  - vm_compute. reflexivity.
  - vm_compute. left. reflexivity.
Defined.

(* ================================================================== *)
(** ** EntityRanker: the product table *)

Lemma product_row_key_row g : product_row_key (product_row g) = fst g.
Proof. destruct g as [[code desc] rows]. reflexivity. Qed.

Lemma product_analysis_keys df :
  map product_row_key (product_analysis df)
  = group_keys ss_eq_dec ss_leb product_key df.
Proof.
  unfold product_analysis. rewrite map_map, <- groupby_keys.
  apply map_ext. intro g. apply product_row_key_row.
Qed.

(** X12. The product table has one row for each (StockCode, Description) pair of
    the frame and no pair twice. *)
Theorem product_table_keys (df : list Row) :
  NoDup (map product_row_key (product_analysis df))
  /\ forall code desc,
       In (code, desc) (map product_row_key (product_analysis df))
       <-> exists r, In r df /\ StockCode r = code /\ Description r = desc.
Proof.
  rewrite product_analysis_keys. split; [apply group_keys_NoDup|].
  intros code desc. rewrite group_keys_In. unfold product_key.
  split; intros [r [Hr H]]; exists r; (split; [exact Hr|]).
  - inversion H. split; reflexivity.
  - destruct H as [-> ->]. reflexivity.
Qed.

Lemma plot_top_products_In df n p :
  In p (plot_top_products df n) -> In p (product_analysis df).
Proof.
  unfold plot_top_products, nlargest. intro H.
  apply firstn_In in H. now apply sort_In in H.
Qed.

(** X13. No returned product row divides by zero: each has at least one order and
    one customer, so its revenue per customer and its average quantity per
    order are finite numbers, the rounded quotients of the row's own
    columns. *)
Theorem product_ratios_are_finite (df : list Row) (n : Z) (p : Product.row) :
  In p (plot_top_products df n) ->
  (1 <= Product.Number_of_Orders p)%nat
  /\ (1 <= Product.Unique_Customers p)%nat
  /\ Product.Revenue_per_Customer p
     = Fin (round2 (Product.Total_Revenue p / nat_to_Q (Product.Unique_Customers p)))
  /\ Product.Avg_Quantity_per_Order p
     = Fin (round2 (inject_Z (Product.Total_Quantity_Sold p)
                    / nat_to_Q (Product.Number_of_Orders p))).
Proof.
  intro H. apply plot_top_products_In in H.
  unfold product_analysis in H. apply in_map_iff in H.
  destruct H as [[[code desc] rows] [<- Hg]].
  apply groupby_In in Hg. destruct Hg as [_ [r [Hr _]]].
  assert (Ho : map InvoiceNo rows <> [])
    by (intro E; apply map_eq_nil in E; subst rows; destruct Hr).
  assert (Hc : map CustomerID rows <> [])
    by (intro E; apply map_eq_nil in E; subst rows; destruct Hr).
  pose proof (nunique_pos _ Ho) as Hno. pose proof (nunique_pos _ Hc) as Hnc.
  cbn [product_row Product.Number_of_Orders Product.Unique_Customers
       Product.Revenue_per_Customer Product.Avg_Quantity_per_Order
       Product.Total_Revenue Product.Total_Quantity_Sold].
  split; [exact Hno|]. split; [exact Hnc|].
  rewrite !fdiv_nonzero by now apply nat_to_Q_nonzero.
  split; reflexivity.
Qed.

Lemma product_ratios_are_finite_witness :
  (1 <= Product.Number_of_Orders product_a_fraction)%nat
  /\ (1 <= Product.Unique_Customers product_a_fraction)%nat
  /\ Product.Revenue_per_Customer product_a_fraction
     = Fin (round2 (Product.Total_Revenue product_a_fraction
                    / nat_to_Q (Product.Unique_Customers product_a_fraction)))
  /\ Product.Avg_Quantity_per_Order product_a_fraction
     = Fin (round2 (inject_Z (Product.Total_Quantity_Sold product_a_fraction)
                    / nat_to_Q (Product.Number_of_Orders product_a_fraction))).
Proof.
  apply (product_ratios_are_finite (cleaned sheet_fraction) 10 product_a_fraction).
  vm_compute. left. reflexivity.
Defined.

(** X14. When [n] is at least the number of products, nothing is cut off: the
    ranking is the whole product table in another order, and its quantities
    add up to the quantity of the whole frame. *)
Theorem top_products_whole_table (df : list Row) (n : Z) :
  Z.of_nat (List.length (product_analysis df)) <= n ->
  Permutation (plot_top_products df n) (product_analysis df)
  /\ Zsum (map Product.Total_Quantity_Sold (plot_top_products df n))
     = Zsum (map Quantity df).
Proof.
  intro Hn.
  assert (Hp : Permutation (plot_top_products df n) (product_analysis df)).
  { unfold plot_top_products, nlargest.
    rewrite firstn_all2 by (rewrite sort_length; lia). apply sort_perm. }
  split; [exact Hp|].
  rewrite (Zsum_perm _ _ (Permutation_map Product.Total_Quantity_Sold Hp)).
  unfold product_analysis. rewrite map_map.
  rewrite <- (groupby_Zsum ss_eq_dec ss_leb product_key Quantity df).
  f_equal. apply map_ext. intros [[code desc] rows]. reflexivity.
Qed.

Lemma top_products_whole_table_witness :
  Permutation (plot_top_products (cleaned sheet_tiny) 10)
              (product_analysis (cleaned sheet_tiny))
  /\ Zsum (map Product.Total_Quantity_Sold (plot_top_products (cleaned sheet_tiny) 10))
     = Zsum (map Quantity (cleaned sheet_tiny)).
Proof.
  apply (top_products_whole_table (cleaned sheet_tiny) 10).
  vm_compute. discriminate.
Defined.

(* ================================================================== *)
(** ** CustomerAnalyzer: the customer table *)

Lemma fold_min_spec l : forall x,
  (forall y, In y (x :: l) -> fold_left Z.min l x <= y)
  /\ In (fold_left Z.min l x) (x :: l).
Proof.
  induction l as [|a l IH]; intro x; simpl.
  - split; [intros y [<-|[]]; lia | now left].
  - destruct (IH (Z.min x a)) as [Hle Hin]. split.
    + intros y [<-|[<-|Hy]].
      * specialize (Hle (Z.min x a) (or_introl eq_refl)). lia.
      * specialize (Hle (Z.min x a) (or_introl eq_refl)). lia.
      * apply Hle. now right.
    + destruct Hin as [E|Hin]; [|now right; right].
      rewrite <- E. destruct (Z.min_spec x a) as [[_ ->]|[_ ->]]; auto.
Qed.

Lemma fold_max_spec l : forall x,
  (forall y, In y (x :: l) -> y <= fold_left Z.max l x)
  /\ In (fold_left Z.max l x) (x :: l).
Proof.
  induction l as [|a l IH]; intro x; simpl.
  - split; [intros y [<-|[]]; lia | now left].
  - destruct (IH (Z.max x a)) as [Hle Hin]. split.
    + intros y [<-|[<-|Hy]].
      * specialize (Hle (Z.max x a) (or_introl eq_refl)). lia.
      * specialize (Hle (Z.max x a) (or_introl eq_refl)). lia.
      * apply Hle. now right.
    + destruct Hin as [E|Hin]; [|now right; right].
      rewrite <- E. destruct (Z.max_spec x a) as [[_ ->]|[_ ->]]; auto.
Qed.

(** The earliest and the latest timestamp of a non-empty column. *)
Lemma ts_min_max_spec (l : list Z) :
  l <> [] ->
  exists lo hi,
    ts_min l = Some lo /\ ts_max l = Some hi
    /\ In lo l /\ In hi l
    /\ forall t, In t l -> lo <= t <= hi.
Proof.
  destruct l as [|x l]; [now intros []|]. intros _.
  destruct (fold_min_spec l x) as [Hmin Hminin].
  destruct (fold_max_spec l x) as [Hmax Hmaxin].
  eexists _, _. split; [reflexivity|]. split; [reflexivity|].
  split; [exact Hminin|]. split; [exact Hmaxin|].
  intros t Ht. split; [now apply Hmin | now apply Hmax].
Qed.

(** C8. Every row of the customer table is about the transactions of its
    own customer: its first and last purchase are the earliest and the
    latest timestamp among that customer's rows of the frame (both are
    timestamps of such rows, and every such row lies between them), and its
    lifetime in days is the whole number of days from the first to the last,
    rounded down, hence not negative; a customer with exactly one
    transaction has the lifetime 0. *)
Theorem customer_lifetime_days (df : list Row) (c : Customer.row) :
  In c (analyze_customer_behavior df) ->
  exists first last,
    Customer.First_Purchase c = Some first
    /\ Customer.Last_Purchase c = Some last
    /\ (exists r, In r df /\ CustomerID r = Customer.CustomerID c
                  /\ InvoiceDate r = first)
    /\ (exists r, In r df /\ CustomerID r = Customer.CustomerID c
                  /\ InvoiceDate r = last)
    /\ (forall r, In r df -> CustomerID r = Customer.CustomerID c ->
                  first <= InvoiceDate r <= last)
    /\ first <= last
    /\ Customer.Customer_Lifetime_Days c = Some ((last - first) / 86400)
    /\ 0 <= (last - first) / 86400
    /\ (List.length (group_rows string_dec CustomerID (Customer.CustomerID c) df)
        = 1%nat ->
        Customer.Customer_Lifetime_Days c = Some 0).
Proof.
  unfold analyze_customer_behavior. intro H. apply in_map_iff in H.
  destruct H as [[cid rows] [<- Hg]].
  apply groupby_In in Hg. destruct Hg as [Erows [r0 [Hr0 _]]].
  assert (Hne : map InvoiceDate rows <> []).
  { intro E. apply map_eq_nil in E. rewrite E in Hr0. destruct Hr0. }
  destruct (ts_min_max_spec _ Hne) as [lo [hi [Hlo [Hhi [Ilo [Ihi Hall]]]]]].
  assert (Hle : lo <= hi) by (specialize (Hall lo Ilo); lia).
  exists lo, hi. cbn [customer_row Customer.First_Purchase Customer.Last_Purchase
                      Customer.Customer_Lifetime_Days Customer.CustomerID].
  rewrite Hlo, Hhi. cbn [span_days].
  split; [reflexivity|]. split; [reflexivity|].
  split.
  { apply in_map_iff in Ilo. destruct Ilo as [r [E Hr]].
    rewrite Erows in Hr. apply group_rows_In in Hr. exists r. tauto. }
  split.
  { apply in_map_iff in Ihi. destruct Ihi as [r [E Hr]].
    rewrite Erows in Hr. apply group_rows_In in Hr. exists r. tauto. }
  split.
  { intros r Hr Hc. apply Hall. apply in_map. rewrite Erows.
    apply group_rows_In. now split. }
  split; [exact Hle|].
  split; [reflexivity|].
  split; [apply (timedelta_days_nonneg (hi - lo)); lia|].
  rewrite <- Erows. intro Hone.
  destruct rows as [|r1 [|r2 rows]]; try discriminate.
  simpl in Hlo, Hhi. inversion Hlo; inversion Hhi; subst.
  unfold timedelta_days. rewrite Z.sub_diag. reflexivity.
Qed.

Lemma customer_lifetime_days_witness :
  (exists first last,
     Customer.First_Purchase customer_A = Some first
     /\ Customer.Last_Purchase customer_A = Some last
     /\ (exists r, In r (cleaned sheet_two_visits)
                   /\ CustomerID r = Customer.CustomerID customer_A
                   /\ InvoiceDate r = first)
     /\ (exists r, In r (cleaned sheet_two_visits)
                   /\ CustomerID r = Customer.CustomerID customer_A
                   /\ InvoiceDate r = last)
     /\ (forall r, In r (cleaned sheet_two_visits) ->
                   CustomerID r = Customer.CustomerID customer_A ->
                   first <= InvoiceDate r <= last)
     /\ first <= last
     /\ Customer.Customer_Lifetime_Days customer_A = Some ((last - first) / 86400)
     /\ 0 <= (last - first) / 86400
     /\ (List.length (group_rows string_dec CustomerID
                        (Customer.CustomerID customer_A) (cleaned sheet_two_visits))
         = 1%nat ->
         Customer.Customer_Lifetime_Days customer_A = Some 0))
  /\ Customer.Customer_Lifetime_Days customer_A = Some 3
  /\ Customer.Customer_Lifetime_Days customer_single = Some 0.
Proof.
  split; [|split].
  - apply (customer_lifetime_days (cleaned sheet_two_visits) customer_A).
    vm_compute. left. reflexivity.
  - vm_compute. reflexivity.
  - assert (Hin : In customer_single (analyze_customer_behavior (cleaned sheet_single)))
      by (vm_compute; left; reflexivity).
    destruct (customer_lifetime_days (cleaned sheet_single) customer_single Hin)
      as [first [last [_ [_ [_ [_ [_ [_ [_ [_ Hone]]]]]]]]]].
    apply Hone. vm_compute. reflexivity.
Defined.

(** X15. A customer's first and last purchase are timestamps of that customer's
    own rows, and every row of the customer lies between them. *)
Theorem first_and_last_purchase (df : list Row) (c : Customer.row) :
  In c (analyze_customer_behavior df) ->
  exists first last,
    Customer.First_Purchase c = Some first
    /\ Customer.Last_Purchase c = Some last
    /\ (exists r, In r df /\ CustomerID r = Customer.CustomerID c
                  /\ InvoiceDate r = first)
    /\ (exists r, In r df /\ CustomerID r = Customer.CustomerID c
                  /\ InvoiceDate r = last)
    /\ forall r, In r df -> CustomerID r = Customer.CustomerID c ->
                 first <= InvoiceDate r <= last.
Proof.
  unfold analyze_customer_behavior. intro H. apply in_map_iff in H.
  destruct H as [[cid rows] [<- Hg]].
  apply groupby_In in Hg. destruct Hg as [-> [r0 [Hr0 _]]].
  set (rows := group_rows string_dec CustomerID cid df) in *.
  assert (Hne : map InvoiceDate rows <> [])
    by (intro E; apply map_eq_nil in E; rewrite E in Hr0; destruct Hr0).
  destruct (ts_min_max_spec _ Hne) as [lo [hi [Hlo [Hhi [Ilo [Ihi Hall]]]]]].
  exists lo, hi.
  cbn [customer_row Customer.First_Purchase Customer.Last_Purchase Customer.CustomerID].
  split; [exact Hlo|]. split; [exact Hhi|].
  split; [|split].
  - apply in_map_iff in Ilo. destruct Ilo as [r [E Hr]].
    apply group_rows_In in Hr. exists r. tauto.
  - apply in_map_iff in Ihi. destruct Ihi as [r [E Hr]].
    apply group_rows_In in Hr. exists r. tauto.
  - intros r Hr Hc. apply Hall. apply in_map. apply group_rows_In. now split.
Qed.

Lemma first_and_last_purchase_witness :
  exists first last,
    Customer.First_Purchase customer_A = Some first
    /\ Customer.Last_Purchase customer_A = Some last
    /\ (exists r, In r (cleaned sheet_two_visits)
                  /\ CustomerID r = Customer.CustomerID customer_A
                  /\ InvoiceDate r = first)
    /\ (exists r, In r (cleaned sheet_two_visits)
                  /\ CustomerID r = Customer.CustomerID customer_A
                  /\ InvoiceDate r = last)
    /\ forall r, In r (cleaned sheet_two_visits) ->
                 CustomerID r = Customer.CustomerID customer_A ->
                 first <= InvoiceDate r <= last.
Proof.
  apply (first_and_last_purchase (cleaned sheet_two_visits) customer_A).
  vm_compute. left. reflexivity.
Defined.

Lemma customer_stats_ids df :
  map Customer.CustomerID (analyze_customer_behavior df)
  = group_keys string_dec String.leb CustomerID df.
Proof.
  unfold analyze_customer_behavior. rewrite map_map, <- groupby_keys.
  apply map_ext. intros [cid rows]. reflexivity.
Qed.

(** X16. The customer table splits the frame by customer: one row for each
    customer id of the frame and no id twice, item counts that add up to the
    quantity of the whole frame, and in every row at least one order and one
    product. *)
Theorem customer_table_splits_frame (df : list Row) :
  NoDup (map Customer.CustomerID (analyze_customer_behavior df))
  /\ (forall cid, In cid (map Customer.CustomerID (analyze_customer_behavior df))
                  <-> exists r, In r df /\ CustomerID r = cid)
  /\ Zsum (map Customer.Total_Items (analyze_customer_behavior df))
     = Zsum (map Quantity df)
  /\ forall c, In c (analyze_customer_behavior df) ->
       (1 <= Customer.Total_Orders c)%nat /\ (1 <= Customer.Unique_Products c)%nat.
Proof.
  rewrite customer_stats_ids.
  split; [apply group_keys_NoDup|].
  split; [intro cid; apply group_keys_In|].
  split.
  - unfold analyze_customer_behavior. rewrite map_map.
    rewrite <- (groupby_Zsum string_dec String.leb CustomerID Quantity df).
    f_equal. apply map_ext. intros [cid rows]. reflexivity.
  - unfold analyze_customer_behavior. intros c H. apply in_map_iff in H.
    destruct H as [[cid rows] [<- Hg]].
    apply groupby_In in Hg. destruct Hg as [_ [r [Hr _]]].
    cbn [customer_row Customer.Total_Orders Customer.Unique_Products].
    split; apply nunique_pos; intro E; apply map_eq_nil in E;
      subst rows; destruct Hr.
Qed.

Lemma rint_nonneg x : (0 <= x)%Q -> 0 <= rint x.
Proof.
  intro H. unfold rint.
  assert (Hf : 0 <= Qfloor x) by (change 0 with (Qfloor 0); now apply Qfloor_resp_le).
  destruct (Qcompare (x - inject_Z (Qfloor x)) (1 # 2)); [|lia|lia].
  destruct (Z.even (Qfloor x)); lia.
Qed.

Lemma round2_nonneg x : (0 <= x)%Q -> (0 <= round2 x)%Q.
Proof.
  intro H. unfold round2.
  assert (Hr : 0 <= rint (x * 100)) by (apply rint_nonneg; lra).
  apply Qle_shift_div_l; [reflexivity|].
  rewrite Qmult_0_l. change 0%Q with (inject_Z 0). now rewrite <- Zle_Qle.
Qed.

Lemma Qsum_nonneg l : Forall (fun x => (0 <= x)%Q) l -> (0 <= Qsum l)%Q.
Proof.
  induction 1 as [|x l Hx Hl IH]; simpl; [apply Qle_refl|lra].
Qed.

Lemma Qsum_app l1 l2 : (Qsum (l1 ++ l2) == Qsum l1 + Qsum l2)%Q.
Proof.
  induction l1 as [|a l IH]; simpl; [lra|]. rewrite IH. lra.
Qed.

Lemma Qsum_perm l1 l2 : Permutation l1 l2 -> (Qsum l1 == Qsum l2)%Q.
Proof.
  induction 1 as [|x l l' Hp IH|x y l|l l' l'' H1 IH1 H2 IH2]; simpl.
  - reflexivity.
  - rewrite IH. reflexivity.
  - lra.
  - now rewrite IH1.
Qed.

Lemma customer_spend_nonneg df c :
  Forall (fun r => (0 <= TotalAmount r)%Q) df ->
  In c (analyze_customer_behavior df) -> (0 <= Customer.Total_Spent c)%Q.
Proof.
  intros Hpos H. unfold analyze_customer_behavior in H. apply in_map_iff in H.
  destruct H as [[cid rows] [<- Hg]].
  apply groupby_In in Hg. destruct Hg as [-> _].
  cbn [customer_row Customer.Total_Spent]. apply round2_nonneg, Qsum_nonneg.
  rewrite Forall_forall in *. intros x Hx. apply in_map_iff in Hx.
  destruct Hx as [r [<- Hr]]. apply Hpos. apply group_rows_In in Hr. tauto.
Qed.

(** X17. On a frame without negative totals the printed share of the top
    customers is a percentage between 0 and 100, or NaN when the combined
    spend of all customers is zero; it is never infinite. *)
Theorem concentration_is_a_percentage (df : list Row) :
  Forall (fun r => (0 <= TotalAmount r)%Q) df ->
  top10_contribution (analyze_customer_behavior df) = NaN
  \/ exists share,
       top10_contribution (analyze_customer_behavior df) = Fin share
       /\ (0 <= share)%Q /\ (share <= 100)%Q.
Proof.
  intro Hpos. set (cs := analyze_customer_behavior df).
  destruct (nlargest_spec Customer.Total_Spent
              (top_decile_count (List.length cs)) cs)
    as [_ [_ [[rest [Hperm _]] _]]].
  change (nlargest (top_decile_count (List.length cs)) Customer.Total_Spent cs)
    with (top_customers cs) in Hperm.
  assert (Hall : forall c, In c cs -> (0 <= Customer.Total_Spent c)%Q)
    by (intros c Hc; now apply (customer_spend_nonneg df)).
  assert (Hsub : forall l, (forall c, In c l -> In c cs) ->
                           (0 <= Qsum (map Customer.Total_Spent l))%Q).
  { intros l Hl. apply Qsum_nonneg. apply Forall_forall. intros x Hx.
    apply in_map_iff in Hx. destruct Hx as [c [<- Hc]]. now apply Hall, Hl. }
  assert (HT : (0 <= Qsum (map Customer.Total_Spent (top_customers cs)))%Q).
  { apply Hsub. intros c Hc. apply (Permutation_in c Hperm).
    apply in_or_app. now left. }
  assert (HR : (0 <= Qsum (map Customer.Total_Spent rest))%Q).
  { apply Hsub. intros c Hc. apply (Permutation_in c Hperm).
    apply in_or_app. now right. }
  assert (HA : (Qsum (map Customer.Total_Spent cs)
                == Qsum (map Customer.Total_Spent (top_customers cs))
                   + Qsum (map Customer.Total_Spent rest))%Q).
  { rewrite <- Qsum_app, <- map_app. apply Qsum_perm, Permutation_map.
    now symmetry. }
  unfold top10_contribution.
  set (T := Qsum (map Customer.Total_Spent (top_customers cs))) in *.
  set (A := Qsum (map Customer.Total_Spent cs)) in *.
  unfold fdiv. destruct (Qeq_bool A 0) eqn:EA.
  - left. apply Qeq_bool_iff in EA.
    assert (HT0 : (T == 0)%Q) by lra.
    assert (H1 : Qltb 0 T = false) by (apply Qltb_false_le; lra).
    assert (H2 : Qltb T 0 = false) by (apply Qltb_false_le; lra).
    now rewrite H1, H2.
  - right. apply Qeq_bool_neq in EA.
    assert (HApos : (0 < A)%Q) by lra.
    exists (T / A * 100)%Q. split; [reflexivity|].
    assert (H0 : (0 <= T / A)%Q).
    { apply Qle_shift_div_l; [exact HApos|]. lra. }
    assert (H1 : (T / A <= 1)%Q).
    { apply Qle_shift_div_r; [exact HApos|]. lra. }
    split; lra.
Qed.

Lemma concentration_is_a_percentage_witness :
  top10_contribution (analyze_customer_behavior (cleaned sheet_two_visits)) = NaN
  \/ exists share,
       top10_contribution (analyze_customer_behavior (cleaned sheet_two_visits))
       = Fin share
       /\ (0 <= share)%Q /\ (share <= 100)%Q.
Proof.
  apply (concentration_is_a_percentage (cleaned sheet_two_visits)).
  vm_compute. repeat constructor; discriminate.
Defined.

(* ================================================================== *)
(** ** ReportSynthesizer: when it returns, its ratios and its peaks *)

Lemma argmax_from_spec (l : list Q) : forall (pre : list Q) (best : Q) (besti : nat),
  (besti < List.length pre)%nat ->
  nth besti pre 0%Q = best ->
  (forall j, (j < List.length pre)%nat -> (nth j pre 0 <= best)%Q) ->
  (forall j, (j < besti)%nat -> (nth j pre 0 < best)%Q) ->
  let i := argmax_from best besti (List.length pre) l in
  (i < List.length (pre ++ l))%nat
  /\ (forall j, (j < List.length (pre ++ l))%nat ->
                (nth j (pre ++ l) 0 <= nth i (pre ++ l) 0)%Q)
  /\ (forall j, (j < i)%nat -> (nth j (pre ++ l) 0 < nth i (pre ++ l) 0)%Q).
Proof.
  induction l as [|x l IH]; intros pre best besti Hb Hn Hle Hlt; cbn zeta.
  - simpl. rewrite app_nil_r. rewrite Hn. auto.
  - simpl argmax_from.
    replace (pre ++ x :: l) with ((pre ++ [x]) ++ l)
      by (rewrite <- app_assoc; reflexivity).
    assert (Hlen : List.length (pre ++ [x]) = S (List.length pre))
      by (rewrite length_app; simpl; lia).
    destruct (Qltb best x) eqn:E.
    + apply Qltb_lt in E. rewrite <- Hlen.
      apply (IH (pre ++ [x]) x (List.length pre)).
      * lia.
      * rewrite app_nth2 by lia. now rewrite Nat.sub_diag.
      * intros j Hj. rewrite Hlen in Hj.
        destruct (Nat.eq_dec j (List.length pre)) as [->|N].
        -- rewrite app_nth2 by lia. rewrite Nat.sub_diag. apply Qle_refl.
        -- rewrite app_nth1 by lia. specialize (Hle j ltac:(lia)). lra.
      * intros j Hj. rewrite app_nth1 by lia. specialize (Hle j Hj). lra.
    + apply Qltb_false_le in E. rewrite <- Hlen.
      apply (IH (pre ++ [x]) best besti).
      * lia.
      * now rewrite app_nth1 by lia.
      * intros j Hj. rewrite Hlen in Hj.
        destruct (Nat.eq_dec j (List.length pre)) as [->|N].
        -- rewrite app_nth2 by lia. now rewrite Nat.sub_diag.
        -- rewrite app_nth1 by lia. apply Hle. lia.
      * intros j Hj. rewrite app_nth1 by lia. now apply Hlt.
Qed.

(** [idxmax] returns a place of the series that holds a maximum, the first
    such place. *)
Lemma idxmax_spec (l : list Q) (i : nat) :
  idxmax l = Ok i ->
  (i < List.length l)%nat
  /\ (forall j, (j < List.length l)%nat -> (nth j l 0 <= nth i l 0)%Q)
  /\ (forall j, (j < i)%nat -> (nth j l 0 < nth i l 0)%Q).
Proof.
  destruct l as [|x l]; [discriminate|]. simpl. intro H. injection H as <-.
  apply (argmax_from_spec l [x] x 0%nat).
  - simpl. lia.
  - reflexivity.
  - intros j Hj. simpl in Hj. assert (j = 0%nat) by lia. subst j. apply Qle_refl.
  - intros j Hj. lia.
Qed.

(** The peak of a table of sums is one of its entries, no other entry is
    larger, and every entry before it is strictly smaller. *)
Lemma peak_spec {K : Type} (default : K) (sales : list (K * Q)) (p : K * Q) :
  peak default sales = Ok p ->
  exists i,
    nth_error sales i = Some p
    /\ (forall q, In q sales -> (snd q <= snd p)%Q)
    /\ (forall j q, (j < i)%nat -> nth_error sales j = Some q -> (snd q < snd p)%Q).
Proof.
  unfold peak. destruct (idxmax (map snd sales)) as [i|e] eqn:E; [|discriminate].
  cbn [bind]. intro H. injection H as <-.
  apply idxmax_spec in E. rewrite length_map in E. destruct E as [Hi [Hmax Hfirst]].
  assert (Hnth : forall j, (j < List.length sales)%nat ->
                           nth j (map snd sales) 0%Q = snd (nth j sales (default, 0%Q))).
  { intros j Hj. change 0%Q with (snd (default, 0%Q)) at 1. apply map_nth. }
  exists i. split; [now apply nth_error_nth'|]. split.
  - intros q Hq. apply In_nth_error in Hq. destruct Hq as [j Hj].
    assert (Hjl : (j < List.length sales)%nat)
      by (apply nth_error_Some; congruence).
    specialize (Hmax j Hjl). rewrite !Hnth in Hmax by assumption.
    now rewrite (nth_error_nth _ _ (default, 0%Q) Hj) in Hmax.
  - intros j q Hj Hq. specialize (Hfirst j Hj).
    rewrite !Hnth in Hfirst by lia.
    now rewrite (nth_error_nth _ _ (default, 0%Q) Hq) in Hfirst.
Qed.

Lemma sales_by_In {K : Type} (K_eq_dec : forall a b : K, {a = b} + {a <> b})
    (K_leb : K -> K -> bool) (key : Row -> K) (df : list Row) (k : K) (v : Q) :
  In (k, v) (sales_by K_eq_dec K_leb key df)
  <-> (exists r, In r df /\ key r = k) /\ v = sales_of K_eq_dec key k df.
Proof.
  unfold sales_by, sales_of. rewrite in_map_iff. split.
  - intros [[k' rows] [E Hg]]. cbn [fst snd] in E. inversion E; subst k' v.
    apply groupby_In in Hg. destruct Hg as [-> [r [_ [Hr Hk]]]].
    split; [now exists r | reflexivity].
  - intros [[r [Hr Hk]] ->].
    exists (k, group_rows K_eq_dec key k df). split; [reflexivity|].
    unfold groupby. apply in_map_iff. exists k. split; [reflexivity|].
    apply group_keys_In. now exists r.
Qed.

(** What a peak of the report is: the key of some row of the frame, with the
    summed totals of that key's rows, which no other key's sum exceeds. *)
Lemma peak_of_sales {K : Type} (K_eq_dec : forall a b : K, {a = b} + {a <> b})
    (K_leb : K -> K -> bool) (key : Row -> K) (default : K) (df : list Row)
    (p : K * Q) :
  peak default (sales_by K_eq_dec K_leb key df) = Ok p ->
  (exists r, In r df /\ key r = fst p)
  /\ snd p = sales_of K_eq_dec key (fst p) df
  /\ forall r, In r df -> (sales_of K_eq_dec key (key r) df <= snd p)%Q.
Proof.
  intro H. apply peak_spec in H. destruct H as [i [Hi [Hmax _]]].
  apply nth_error_In in Hi. destruct p as [k v].
  apply sales_by_In in Hi. destruct Hi as [Hr Hv]. cbn [fst snd].
  split; [exact Hr|]. split; [exact Hv|].
  intros r Hin.
  apply (Hmax (key r, sales_of K_eq_dec key (key r) df)).
  apply sales_by_In. split; [now exists r | reflexivity].
Qed.

Lemma report_Ok_inv (df : list Row) (report : Report) :
  generate_comprehensive_report df = Ok report ->
  exists daily hourly dow,
    peak 0 (sales_by Z.eq_dec Z.leb invoice_day df) = Ok daily
    /\ peak 0 (sales_by Z.eq_dec Z.leb Hour df) = Ok hourly
    /\ peak EmptyString (sales_by string_dec String.leb DayOfWeek df) = Ok dow
    /\ best_day report = fst daily /\ best_day_sales report = snd daily
    /\ peak_hour report = fst hourly /\ peak_hour_sales report = snd hourly
    /\ best_dow report = fst dow /\ best_dow_sales report = snd dow
    /\ total_revenue report = Qsum (map TotalAmount df)
    /\ total_transactions report = List.length df
    /\ unique_customers report = nunique (map CustomerID df)
    /\ unique_products report = nunique (map StockCode df)
    /\ date_range report
       = span_days (ts_min (map InvoiceDate df)) (ts_max (map InvoiceDate df))
    /\ avg_daily_revenue report
       = fdiv_opt (total_revenue report) (date_range report)
    /\ revenue_per_customer report
       = fdiv (total_revenue report) (nat_to_Q (unique_customers report))
    /\ avg_transaction_value report
       = fdiv (total_revenue report) (nat_to_Q (total_transactions report))
    /\ df <> [].
Proof.
  unfold generate_comprehensive_report. fold invoice_day.
  change (fun r : Row => days_of (InvoiceDate r)) with invoice_day.
  destruct (peak 0 (sales_by Z.eq_dec Z.leb invoice_day df)) as [daily|e] eqn:E1;
    [|discriminate].
  destruct (peak 0 (sales_by Z.eq_dec Z.leb Hour df)) as [hourly|e] eqn:E2;
    [|discriminate].
  destruct (peak EmptyString (sales_by string_dec String.leb DayOfWeek df))
    as [dow|e] eqn:E3; [|discriminate].
  cbn [bind]. intro H. injection H as <-.
  exists daily, hourly, dow. cbn.
  repeat (split; [reflexivity|]).
  intros ->. discriminate.
Qed.


(** X19. The three peaks of a report: the best day, the peak hour and the best
    weekday are those of rows of the frame, each with the summed totals of
    its own rows, and no day, hour or weekday of the frame sums to more. *)
Theorem report_peaks_are_maxima (df : list Row) (report : Report) :
  generate_comprehensive_report df = Ok report ->
  ((exists r, In r df /\ invoice_day r = best_day report)
   /\ best_day_sales report = sales_of Z.eq_dec invoice_day (best_day report) df
   /\ forall r, In r df ->
        (sales_of Z.eq_dec invoice_day (invoice_day r) df <= best_day_sales report)%Q)
  /\ ((exists r, In r df /\ Hour r = peak_hour report)
      /\ peak_hour_sales report = sales_of Z.eq_dec Hour (peak_hour report) df
      /\ forall r, In r df ->
           (sales_of Z.eq_dec Hour (Hour r) df <= peak_hour_sales report)%Q)
  /\ ((exists r, In r df /\ DayOfWeek r = best_dow report)
      /\ best_dow_sales report = sales_of string_dec DayOfWeek (best_dow report) df
      /\ forall r, In r df ->
           (sales_of string_dec DayOfWeek (DayOfWeek r) df <= best_dow_sales report)%Q).
Proof.
  intro H. apply report_Ok_inv in H.
  destruct H as [daily [hourly [dow [H1 [H2 [H3 [E1 [E2 [E3 [E4 [E5 [E6 _]]]]]]]]]]]].
  rewrite E1, E2, E3, E4, E5, E6.
  split; [|split]; eapply peak_of_sales; eassumption.
Qed.

Lemma report_peaks_are_maxima_witness :
  ((exists r, In r (cleaned sheet_two_visits)
              /\ invoice_day r = best_day report_two_visits)
   /\ best_day_sales report_two_visits
      = sales_of Z.eq_dec invoice_day (best_day report_two_visits)
                 (cleaned sheet_two_visits)
   /\ forall r, In r (cleaned sheet_two_visits) ->
        (sales_of Z.eq_dec invoice_day (invoice_day r) (cleaned sheet_two_visits)
         <= best_day_sales report_two_visits)%Q)
  /\ ((exists r, In r (cleaned sheet_two_visits)
                 /\ Hour r = peak_hour report_two_visits)
      /\ peak_hour_sales report_two_visits
         = sales_of Z.eq_dec Hour (peak_hour report_two_visits)
                    (cleaned sheet_two_visits)
      /\ forall r, In r (cleaned sheet_two_visits) ->
           (sales_of Z.eq_dec Hour (Hour r) (cleaned sheet_two_visits)
            <= peak_hour_sales report_two_visits)%Q)
  /\ ((exists r, In r (cleaned sheet_two_visits)
                 /\ DayOfWeek r = best_dow report_two_visits)
      /\ best_dow_sales report_two_visits
         = sales_of string_dec DayOfWeek (best_dow report_two_visits)
                    (cleaned sheet_two_visits)
      /\ forall r, In r (cleaned sheet_two_visits) ->
           (sales_of string_dec DayOfWeek (DayOfWeek r) (cleaned sheet_two_visits)
            <= best_dow_sales report_two_visits)%Q).
Proof.
  apply (report_peaks_are_maxima (cleaned sheet_two_visits) report_two_visits).
  vm_compute. reflexivity.
Defined.

(** X20. The ratios of a report.  The span in days exists and is not negative;
    the revenue per customer and the average transaction value have a
    divisor of at least one and are finite; the average daily revenue is the
    finite quotient total / days whenever the span is at least one day. *)
Theorem report_ratios (df : list Row) (report : Report) :
  generate_comprehensive_report df = Ok report ->
  (1 <= total_transactions report)%nat
  /\ (1 <= unique_customers report <= total_transactions report)%nat
  /\ revenue_per_customer report
     = Fin (total_revenue report / nat_to_Q (unique_customers report))
  /\ avg_transaction_value report
     = Fin (total_revenue report / nat_to_Q (total_transactions report))
  /\ exists days,
       date_range report = Some days
       /\ 0 <= days
       /\ (1 <= days ->
           avg_daily_revenue report = Fin (total_revenue report / inject_Z days)).
Proof.
  intro H. apply report_Ok_inv in H.
  destruct H as [daily [hourly [dow [_ [_ [_ [_ [_ [_ [_ [_ [_
                  [Et [En [Ec [_ [Er [Ea [Ep [Ev Hne]]]]]]]]]]]]]]]]]]]].
  assert (Hlen : (1 <= List.length df)%nat)
    by (destruct df; [now elim Hne|simpl; lia]).
  assert (Hc : map CustomerID df <> [])
    by (intro E; apply map_eq_nil in E; contradiction).
  pose proof (nunique_pos _ Hc) as Hc1.
  pose proof (nunique_le (map CustomerID df)) as Hc2. rewrite length_map in Hc2.
  rewrite En, Ec in *.
  split; [exact Hlen|]. split; [lia|].
  split; [rewrite Ep; apply fdiv_nonzero; now apply nat_to_Q_nonzero|].
  split; [rewrite Ev; apply fdiv_nonzero; now apply nat_to_Q_nonzero|].
  assert (Hd : map InvoiceDate df <> [])
    by (intro E; apply map_eq_nil in E; contradiction).
  destruct (ts_min_max _ Hd) as [lo [hi [Hlo [Hhi Hle]]]].
  rewrite Hlo, Hhi in Er. cbn [span_days] in Er.
  exists (timedelta_days (hi - lo)). split; [exact Er|].
  split; [apply timedelta_days_nonneg; lia|].
  intro H1. rewrite Ea, Er. cbn [fdiv_opt]. apply fdiv_nonzero.
  intro E. unfold Qeq in E. simpl in E. lia.
Qed.

Lemma report_ratios_witness :
  (1 <= total_transactions report_two_visits)%nat
  /\ (1 <= unique_customers report_two_visits
      <= total_transactions report_two_visits)%nat
  /\ revenue_per_customer report_two_visits
     = Fin (total_revenue report_two_visits
            / nat_to_Q (unique_customers report_two_visits))
  /\ avg_transaction_value report_two_visits
     = Fin (total_revenue report_two_visits
            / nat_to_Q (total_transactions report_two_visits))
  /\ exists days,
       date_range report_two_visits = Some days
       /\ 0 <= days
       /\ (1 <= days ->
           avg_daily_revenue report_two_visits
           = Fin (total_revenue report_two_visits / inject_Z days)).
Proof.
  apply (report_ratios (cleaned sheet_two_visits) report_two_visits).
  vm_compute. reflexivity.
Defined.

(* ================================================================== *)
(** ** The download scripts *)

Lemma raise_for_status_None status_code :
  Download.raise_for_status status_code = None <-> Download.ok_status status_code.
Proof.
  unfold Download.raise_for_status, Download.ok_status.
  destruct (Z.leb_spec 400 status_code) as [L|L],
           (Z.ltb_spec status_code 600) as [U|U]; simpl;
    split; intro E; try discriminate; try reflexivity; try lia.
Qed.


(** X22. After the guarded script the dataset file holds either what it held
    before, or, when it was absent, the body of a response whose status is
    not a client or server error; a failed request or an error status leaves
    no dataset file.  The network is asked exactly when the dataset is absent
    and [data] is not a regular file. *)
Theorem guarded_script_dataset (fs : Download.filesystem) (net : Download.network)
    (content : string) :
  (Download.dataset_content (Download.fs_after (Download.guarded_script fs net))
   = Some content
   <-> Download.dataset_content fs = Some content
       \/ ((fs = Download.NoData \/ fs = Download.DataDir None)
           /\ exists status_code,
                net = Download.Responded status_code content
                /\ Download.ok_status status_code))
  /\ (Download.requested (Download.guarded_script fs net) = true
      <-> fs = Download.NoData \/ fs = Download.DataDir None).
Proof.
  split.
  - destruct fs as [|c|[[c|]|]].
    + destruct net as [|s b]; cbn.
      * split; [discriminate|]. intros [H|[_ [s [H _]]]]; discriminate.
      * destruct (Download.raise_for_status s) as [e|] eqn:E; cbn.
        -- split; [discriminate|]. intros [H|[_ [s' [H Hok]]]]; [discriminate|].
           injection H as -> ->. apply raise_for_status_None in Hok. congruence.
        -- split.
           ++ intro H. injection H as ->. right. split; [now left|].
              exists s. split; [reflexivity|]. now apply raise_for_status_None.
           ++ intros [H|[_ [s' [H _]]]]; [discriminate|]. now injection H as _ ->.
    + cbn. split; [discriminate|].
      intros [H|[[H|H] _]]; discriminate.
    + cbn. split; [intro H; now left|].
      intros [H|[[H|H] _]]; [exact H|discriminate|discriminate].
    + cbn. split; [discriminate|].
      intros [H|[[H|H] _]]; discriminate.
    + destruct net as [|s b]; cbn.
      * split; [discriminate|]. intros [H|[_ [s [H _]]]]; discriminate.
      * destruct (Download.raise_for_status s) as [e|] eqn:E; cbn.
        -- split; [discriminate|]. intros [H|[_ [s' [H Hok]]]]; [discriminate|].
           injection H as -> ->. apply raise_for_status_None in Hok. congruence.
        -- split.
           ++ intro H. injection H as ->. right. split; [now right|].
              exists s. split; [reflexivity|]. now apply raise_for_status_None.
           ++ intros [H|[_ [s' [H _]]]]; [discriminate|]. now injection H as _ ->.
  - destruct fs as [|c|[[c|]|]]; cbn.
    + destruct net as [|s b]; cbn;
        [|destruct (Download.raise_for_status s); cbn]; split; auto.
    + split; [discriminate|]. intros [H|H]; discriminate.
    + split; [discriminate|]. intros [H|H]; discriminate.
    + split; [discriminate|]. intros [H|H]; discriminate.
    + destruct net as [|s b]; cbn;
        [|destruct (Download.raise_for_status s); cbn]; split; auto.
Qed.


(* ================================================================== *)
(** ** Rounded revenues against the frame's total *)

(** [np.rint] is within one half of its argument. *)
Lemma rint_error y :
  (inject_Z (rint y) - y <= 1 # 2)%Q /\ (y - inject_Z (rint y) <= 1 # 2)%Q.
Proof.
  unfold rint. pose proof (Qfloor_le y) as Hlo. pose proof (Qlt_floor y) as Hhi.
  rewrite inject_Z_plus in Hhi. change (inject_Z 1) with 1%Q in Hhi.
  destruct (Qcompare (y - inject_Z (Qfloor y)) (1 # 2)) eqn:E.
  - apply Qeq_alt in E. destruct (Z.even (Qfloor y)).
    + split; lra.
    + rewrite inject_Z_plus. change (inject_Z 1) with 1%Q. split; lra.
  - apply Qlt_alt in E. split; lra.
  - apply Qgt_alt in E. rewrite inject_Z_plus. change (inject_Z 1) with 1%Q.
    split; lra.
Qed.

(** Rounding to two decimals moves a value by at most half a hundredth. *)
Lemma round2_error x :
  (round2 x - x <= 1 # 200)%Q /\ (x - round2 x <= 1 # 200)%Q.
Proof.
  unfold round2. destruct (rint_error (x * 100)) as [H1 H2].
  set (r := inject_Z (rint (x * 100))) in *.
  assert (E : (r / 100 == r * (1 # 100))%Q) by (unfold Qdiv; reflexivity).
  rewrite E. split; lra.
Qed.

Lemma Qsum_concat (ls : list (list Q)) :
  (Qsum (List.concat ls) == Qsum (map Qsum ls))%Q.
Proof.
  induction ls as [|l ls IH]; simpl; [reflexivity|].
  rewrite Qsum_app, IH. reflexivity.
Qed.

(** The totals summed group by group are the totals summed over the
    frame. *)
Lemma groupby_Qsum {K : Type} (K_eq_dec : forall a b : K, {a = b} + {a <> b})
    (K_leb : K -> K -> bool) (key : Row -> K) (df : list Row) :
  (Qsum (map (fun g => Qsum (map TotalAmount (snd g))) (groupby K_eq_dec K_leb key df))
   == Qsum (map TotalAmount df))%Q.
Proof.
  rewrite <- (Qsum_perm _ _ (Permutation_map TotalAmount
                               (groupby_partition K_eq_dec K_leb key df))).
  rewrite concat_map, Qsum_concat, !map_map. reflexivity.
Qed.

Lemma Qsum_rounded {A : Type} (f : A -> Q) (l : list A) :
  (Qsum (map (fun x => round2 (f x)) l) - Qsum (map f l)
   <= nat_to_Q (List.length l) * (1 # 200))%Q
  /\ (Qsum (map f l) - Qsum (map (fun x => round2 (f x)) l)
      <= nat_to_Q (List.length l) * (1 # 200))%Q.
Proof.
  induction l as [|a l [IH1 IH2]].
  - split; vm_compute; discriminate.
  - destruct (round2_error (f a)) as [H1 H2].
    assert (E : (nat_to_Q (List.length (a :: l)) == nat_to_Q (List.length l) + 1)%Q).
    { unfold nat_to_Q. simpl List.length. rewrite Nat2Z.inj_succ.
      unfold Z.succ. rewrite inject_Z_plus. reflexivity. }
    rewrite E. cbn [map]. unfold Qsum in *. cbn [fold_right]. split; lra.
Qed.

(** X11. The "Total Revenue" of the trend summary, the sum of the monthly
    revenues, is the frame's total up to the rounding of each month: the two
    differ by at most half a hundredth per period, and each monthly revenue
    is within half a hundredth of its period's sum. *)
Theorem monthly_revenue_rounding (df : list Row) (ms : list Monthly.row) :
  analyze_sales_trends df = Ok ms ->
  (forall m, In m ms ->
     (Monthly.Total_Revenue m - period_revenue df (monthly_key m) <= 1 # 200)%Q
     /\ (period_revenue df (monthly_key m) - Monthly.Total_Revenue m <= 1 # 200)%Q)
  /\ (Qsum (map Monthly.Total_Revenue ms) - Qsum (map TotalAmount df)
      <= nat_to_Q (List.length ms) * (1 # 200))%Q
  /\ (Qsum (map TotalAmount df) - Qsum (map Monthly.Total_Revenue ms)
      <= nat_to_Q (List.length ms) * (1 # 200))%Q.
Proof.
  intro H. apply analyze_sales_trends_Ok_eq in H. subst ms.
  split.
  - intros m Hm. apply growth_rates_In in Hm.
    destruct Hm as [a [rg [cg [Ha ->]]]].
    apply aggregated_revenue in Ha. destruct Ha as [Ha _].
    change (Monthly.Total_Revenue (Monthly.set_growth a rg cg))
      with (Monthly.Total_Revenue a).
    change (monthly_key (Monthly.set_growth a rg cg)) with (monthly_key a).
    rewrite Ha. apply round2_error.
  - rewrite growth_rates_length, growth_rates_keep by reflexivity.
    unfold aggregated_periods. rewrite length_map, map_map.
    set (gs := groupby ym_eq_dec ym_leb ym_key df).
    assert (E : map (fun g => Monthly.Total_Revenue
                               (monthly_row g (seconds_per_day
                                               * days_from_civil (fst (fst g))
                                                                 (snd (fst g)) 1))) gs
                = map (fun g => round2 (Qsum (map TotalAmount (snd g)))) gs).
    { apply map_ext. intros [[y mo] rows]. reflexivity. }
    rewrite E.
    pose proof (Qsum_rounded (fun g : Z * Z * list Row => Qsum (map TotalAmount (snd g))) gs)
      as [H1 H2].
    pose proof (groupby_Qsum ym_eq_dec ym_leb ym_key df) as Ht. fold gs in Ht.
    split; lra.
Qed.

Lemma monthly_revenue_rounding_witness :
  (forall m, In m trends_fraction ->
     (Monthly.Total_Revenue m - period_revenue (cleaned sheet_fraction) (monthly_key m)
      <= 1 # 200)%Q
     /\ (period_revenue (cleaned sheet_fraction) (monthly_key m)
         - Monthly.Total_Revenue m <= 1 # 200)%Q)
  /\ (Qsum (map Monthly.Total_Revenue trends_fraction)
      - Qsum (map TotalAmount (cleaned sheet_fraction))
      <= nat_to_Q (List.length trends_fraction) * (1 # 200))%Q
  /\ (Qsum (map TotalAmount (cleaned sheet_fraction))
      - Qsum (map Monthly.Total_Revenue trends_fraction)
      <= nat_to_Q (List.length trends_fraction) * (1 # 200))%Q.
Proof.
  apply (monthly_revenue_rounding (cleaned sheet_fraction) trends_fraction).
  vm_compute. reflexivity.
Defined.
